(** * Iguanas pipelines: [ClassAccessor] and [LinearPipeline]

    A shallow embedding of [iguanas/pipeline/class_accessor.py] and
    [iguanas/pipeline/linear_pipeline.py], and the properties of the
    pipeline executor proved over it.

    Python dictionaries are stdpp finite maps, Python exceptions are the
    values of [exn], and a method that may raise returns [exn + A].  Tables
    and step objects are references into a store, so that a change made in
    place is seen through every reference to the object. *)

From stdpp Require Import functions gmap strings list.

Open Scope string_scope.
Open Scope list_scope.
Open Scope nat_scope.

(** ** Exceptions *)

(** The exceptions the two modules raise or meet, each with the piece of
    text that identifies the offender.  [NotFittedError] is the dedicated
    error of a fit check.  [MissingStateError attr] is what Python raises
    when [self.attr] is iterated or subscripted while the object holds no
    value for it (an [AttributeError] if the attribute is unbound, a
    [TypeError] on [None] if it is bound to [None]): which of the two
    depends on [_BasePipeline.__init__], which is not among the sources. *)
Inductive exn : Type :=
| TypeError (x_name : string)
| ValueError (msg : string)
| KeyError (key : string)
| IndexError
| AttributeError (attr : string)
| MissingStateError (attr : string)
| NotFittedError
| StepError (msg : string).

(** ** class_accessor.py *)

Module ClassAccessor.

Record t : Type := __init__ {
  class_tag : string;
  class_attribute : string
}.

(** The f-string of the [ValueError] raised by [get]. *)
Definition missing_step_msg (tag : string) : string :=
  "There are no steps in `pipeline` corresponding to `class_tag`='"
    +:+ tag +:+ "'".

Section Get.
(** The attribute values ([Union[str, float, int, dict, list, tuple]]). *)
Context {V : Type}.

(** [pipeline_params[self.class_tag][self.class_attribute]] when the tag
    is a key, [ValueError] otherwise; the inner subscript raises
    [KeyError] on a missing attribute. *)
Definition get (self : t) (pipeline_params : gmap string (gmap string V))
  : exn + V :=
  match pipeline_params !! class_tag self with
  | Some namespace =>
      match namespace !! class_attribute self with
      | Some v => inr v
      | None => inl (KeyError (class_attribute self))
      end
  | None => inl (ValueError (missing_step_msg (class_tag self)))
  end.
End Get.

End ClassAccessor.

(** ** Values handed to the pipeline *)

(** The pandas containers are collaborators of the pipeline: only their
    contents type is fixed here. *)
Class Frames : Type := {
  table : Type;   (* what a DataFrame holds *)
  column : Type   (* what a Series holds *)
}.

(** The type names of [iguanas.utils.types] that the pipeline mentions;
    every other Python type is an [OtherType]. *)
Inductive pytype : Type :=
| PandasDataFrame
| PandasSeries
| Dictionary
| ClassList
| ClassNoneType
| OtherType (name : string).

#[global] Instance pytype_eq_dec : EqDecision pytype.
Proof. solve_decision. Defined.

(** A Python value as the pipeline sees it.  A table, a series or a
    mapping is a reference: the identity of the object ([oid], Python's
    [id]); what the object holds is in the store. *)
Inductive pyval : Type :=
| PyNone
| DataFrame (oid : nat)
| Series (oid : nat)
| Dict (oid : nat)
| PyList (items : list string)
| PyObject (type_name : string).

(** What a data object holds: the contents of a DataFrame or of a Series,
    or, for a mapping, the objects its keys are bound to. *)
Inductive payload `{Frames} : Type :=
| Table (t : table)
| Column (c : column)
| Items (m : list (string * pyval))
| NoData.

Definition type_of (x : pyval) : pytype :=
  match x with
  | PyNone => ClassNoneType
  | DataFrame _ => PandasDataFrame
  | Series _ => PandasSeries
  | Dict _ => Dictionary
  | PyList _ => ClassList
  | PyObject n => OtherType n
  end.

(** The identity of a data object, [None] for the values that have none in
    this model. *)
Definition oid_of (x : pyval) : option nat :=
  match x with
  | DataFrame o | Series o | Dict o => Some o
  | _ => None
  end.

(** What the object behind a value holds in a store of data objects. *)
Definition found `{Frames} (d : nat → payload) (x : pyval) : payload :=
  match oid_of x with
  | Some o => d o
  | None => NoData
  end.

(** Writing data objects: those changed in place and those created. *)
Definition write `{Frames} (ups : list (nat * payload)) (d : nat → payload)
  : nat → payload :=
  foldl (λ d u, <[u.1 := u.2]> d) d ups.

(** Modelled from the spec: [utils.check_allowed_types], which is not among
    the sources.  The spec has it reject a value whose container kind is not
    one of the allowed ones with a type error that identifies the argument. *)
Definition check_allowed_types
    (x : pyval) (x_name : string) (allowed_types : list pytype) : exn + unit :=
  if decide (type_of x ∈ allowed_types) then inr tt else inl (TypeError x_name).

(** ** Step objects *)

(** A step is an opaque object with the capabilities the pipeline calls.
    [_BasePipeline] is not among the sources, so what its four dispatch
    methods do with a step is taken as given.  Each reads the attribute
    namespace [St] of the step, the data objects as they are, and its
    arguments; it leaves the step with a new namespace, writes data objects
    (the tables it changes in place, such as the [X] it is handed, and those
    it creates), and returns a value or raises. *)
Class StepContract `{Frames} : Type := {
  St : Type;
  Rules : Type;
  step_fit_transform :
    string → St → (nat → payload) → pyval → pyval → pyval →
    St * list (nat * payload) * (exn + pyval);
  step_fit :
    string → St → (nat → payload) → pyval → pyval → pyval →
    St * list (nat * payload) * (exn + unit);
  step_transform :
    string → St → (nat → payload) → pyval →
    St * list (nat * payload) * (exn + pyval);
  step_predict :
    St → (nat → payload) → pyval →
    St * list (nat * payload) * (exn + pyval);
  (* [step.rules], absent on a step that has no such attribute *)
  step_rules : St → option Rules;
  (* the exception [copy.deepcopy] raises on a step it cannot copy *)
  step_uncopyable : St → option exn
}.

(** The address of a step object on the heap. *)
Abbreviation addr := nat (only parsing).

Inductive method : Type := FitTransform | Fit | Transform | Predict.

(** One call of a dispatch method of [_BasePipeline], logged with the
    arguments it was given, what the step and the handed [X] held when it
    was called, the data objects it wrote, and what it returned. *)
Record event `{StepContract} : Type := Event {
  ev_method : method;
  ev_tag : option string;
  ev_step : addr;
  ev_state : St;
  ev_X : pyval;
  ev_found : payload;
  ev_updates : list (nat * payload);
  ev_target : option (pyval * pyval);
  ev_out : exn + pyval
}.

(** ** linear_pipeline.py *)

Module LinearPipeline.

(** The attributes of a [LinearPipeline] object.  [steps_] and [rules]
    hold nothing until [fit] binds them. *)
Record t `{StepContract} : Type := Self {
  steps : list (string * addr);
  use_init_data : option (list string);
  steps_ : option (list (string * addr));
  rules : option Rules
}.

(** The part of the Python store the pipeline touches: the heap of step
    objects with its allocation pointer, the data objects, the next free
    object identity for the copies the pipeline makes of them, the log of
    the dispatch calls made so far, and the pipeline object itself. *)
Record world `{StepContract} : Type := World {
  heap : addr → St;
  next_addr : addr;
  data : nat → payload;
  next_oid : nat;
  trace : list event;
  self : t
}.

(** *** Computations: a result or an exception, and the store left behind *)

Section Monad.
Context `{StepContract}.

Definition M (A : Type) : Type := world → (exn + A) * world.

Definition ret {A} (a : A) : M A := λ w, (inr a, w).

Definition raise {A} (e : exn) : M A := λ w, (inl e, w).

Definition bind {A B} (m : M A) (k : A → M B) : M B :=
  λ w, match m w with
       | (inr a, w') => k a w'
       | (inl e, w') => (inl e, w')
       end.

Definition lift {A} (r : exn + A) : M A := λ w, (r, w).

(** Reading and rebinding attributes of [self]. *)
Definition gets {A} (f : t → A) : M A := λ w, (inr (f (self w)), w).

Definition modify (f : t → t) : M unit :=
  λ w, (inr tt, {| heap := heap w; next_addr := next_addr w;
                   data := data w;
                   next_oid := next_oid w; trace := trace w;
                   self := f (self w) |}).

End Monad.

Notation "x <- m ;; k" := (bind m (λ x, k))
  (at level 100, m at next level, right associativity).
Notation "m ;; k" := (bind m (λ _, k))
  (at level 100, right associativity).

Section Methods.
Context `{StepContract}.

(** *** The store operations behind the Python statements *)

(** [self.steps_ = v] and [self.rules = v]. *)
Definition set_steps_ (v : list (string * addr)) : M unit :=
  modify (λ s, {| steps := steps s; use_init_data := use_init_data s;
                  steps_ := Some v; rules := rules s |}).

Definition set_rules (v : Rules) : M unit :=
  modify (λ s, {| steps := steps s; use_init_data := use_init_data s;
                  steps_ := steps_ s; rules := Some v |}).

(** Reading [self.steps_] as a list. *)
Definition get_steps_ : M (list (string * addr)) :=
  v <- gets steps_;;
  match v with
  | Some l => ret l
  | None => raise (MissingStateError "steps_")
  end.

(** [l[-1]], an [IndexError] on the empty list. *)
Definition last_item {A} (l : list A) : M A :=
  match last l with
  | Some x => ret x
  | None => raise IndexError
  end.

(** [step.rules] *)
Definition get_rules (step : addr) : M Rules :=
  λ w, match step_rules (heap w step) with
       | Some r => (inr r, w)
       | None => (inl (AttributeError "rules"), w)
       end.

(** [X.copy()]: a new object that holds what [X] holds.  For a DataFrame
    that is a copy of its contents; for a mapping it is the same bindings,
    so the tables it maps to are shared with [X].  [None] and the objects
    of other types have no such method in this model; a list has one, and
    no identity here. *)
Definition copy (X : pyval) : M pyval :=
  λ w,
    let w' := {| heap := heap w; next_addr := next_addr w;
                 data := <[next_oid w := found (data w) X]> (data w);
                 next_oid := S (next_oid w); trace := trace w;
                 self := self w |} in
    match X with
    | DataFrame _ => (inr (DataFrame (next_oid w)), w')
    | Series _ => (inr (Series (next_oid w)), w')
    | Dict _ => (inr (Dict (next_oid w)), w')
    | PyList l => (inr (PyList l), w)
    | PyNone | PyObject _ => (inl (AttributeError "copy"), w)
    end.

(** A new step object with the attribute namespace of the one at [a],
    unless that step cannot be copied. *)
Definition alloc_copy (a : addr) : M addr :=
  λ w, match step_uncopyable (heap w a) with
       | Some err => (inl err, w)
       | None =>
           (inr (next_addr w),
            {| heap := <[next_addr w := heap w a]> (heap w);
               next_addr := S (next_addr w); data := data w;
               next_oid := next_oid w; trace := trace w; self := self w |})
       end.

(** [copy.deepcopy] of a list of [(tag, step)] pairs: every step object
    is copied once, and the pairs that shared a step object share its
    copy ([memo], keyed by the address of the original).  The tags are
    strings and stay as they are.  It raises at the first step that cannot
    be copied. *)
Fixpoint deepcopy_items (memo : gmap addr addr) (l : list (string * addr))
  : M (list (string * addr)) :=
  match l with
  | [] => ret []
  | (tag, a) :: l' =>
      match memo !! a with
      | Some a' =>
          r <- deepcopy_items memo l';;
          ret ((tag, a') :: r)
      | None =>
          a' <- alloc_copy a;;
          r <- deepcopy_items (<[a := a']> memo) l';;
          ret ((tag, a') :: r)
      end
  end.

Definition deepcopy (l : list (string * addr)) : M (list (string * addr)) :=
  deepcopy_items ∅ l.

(** Running a capability of the step object at [step]: the object is
    left with its new namespace, the data objects the step wrote are
    written, and the call is logged. *)
Definition dispatch (m : method) (step_tag : option string) (step : addr)
    (X : pyval) (target : option (pyval * pyval))
    (run : St → (nat → payload) → St * list (nat * payload) * (exn + pyval))
  : M pyval :=
  λ w,
    let '(s', ups, out) := run (heap w step) (data w) in
    (out, {| heap := <[step := s']> (heap w);
             next_addr := next_addr w;
             data := write ups (data w);
             next_oid := next_oid w;
             trace := trace w ++ [{| ev_method := m; ev_tag := step_tag;
                                     ev_step := step;
                                     ev_state := heap w step;
                                     ev_X := X;
                                     ev_found := found (data w) X;
                                     ev_updates := ups;
                                     ev_target := target;
                                     ev_out := out |}];
             self := self w |}).

(** *** The dispatch methods inherited from [_BasePipeline] *)

(** Each one runs the matching capability of [StepContract] on the step
    object it is handed, with the arguments it is handed, and logs the
    call.  [_pipeline_predict] is not told the tag of the step. *)

Definition _pipeline_fit_transform (step_tag : string) (step : addr)
    (X y sample_weight : pyval) : M pyval :=
  dispatch FitTransform (Some step_tag) step X (Some (y, sample_weight))
    (λ s d, step_fit_transform step_tag s d X y sample_weight).

Definition _pipeline_fit (step_tag : string) (step : addr)
    (X y sample_weight : pyval) : M unit :=
  dispatch Fit (Some step_tag) step X (Some (y, sample_weight))
    (λ s d, let '(s', ups, r) := step_fit step_tag s d X y sample_weight in
            (s', ups, match r with inl e => inl e | inr _ => inr PyNone end));;
  ret tt.

Definition _pipeline_transform (step_tag : string) (step : addr)
    (X : pyval) : M pyval :=
  dispatch Transform (Some step_tag) step X None
    (λ s d, step_transform step_tag s d X).

Definition _pipeline_predict (step : addr) (X : pyval) : M pyval :=
  dispatch Predict None step X None (λ s d, step_predict s d X).

(** *** [LinearPipeline] *)

(** Modelled from the spec: [_BasePipeline.__init__], which is not among
    the sources.  The spec has a pipeline start out unfitted: the steps
    it was configured with, and no fitted state. *)
Definition _BasePipeline__init__ (steps : list (string * addr)) : t :=
  {| steps := steps; use_init_data := None;
     steps_ := None; rules := None |}.

(** [LinearPipeline.__init__]: the base initialiser, the type check of
    [use_init_data], and the binding of [self.use_init_data]. *)
Definition __init__ (steps : list (string * addr)) (use_init_data : pyval)
  : exn + t :=
  let self := _BasePipeline__init__ steps in
  match check_allowed_types use_init_data "use_init_data"
          [ClassList; ClassNoneType] with
  | inl e => inl e
  | inr _ =>
      inr {| steps := LinearPipeline.steps self;
             use_init_data := match use_init_data with
                              | PyList tags => Some tags
                              | _ => None
                              end;
             steps_ := LinearPipeline.steps_ self;
             rules := LinearPipeline.rules self |}
  end.

(** [if self.use_init_data is not None and step_tag in self.use_init_data] *)
Definition _return_X (step_tag : string) (X X_init : pyval) : M pyval :=
  tags <- gets use_init_data;;
  match tags with
  | Some l => if decide (step_tag ∈ l) then ret X_init else ret X
  | None => ret X
  end.

(** [if self.use_init_data:] holds for a list that is not empty. *)
Definition _copy_X_if_use_init_data (X : pyval) : M pyval :=
  tags <- gets use_init_data;;
  match tags with
  | Some (_ :: _) => copy X
  | Some [] | None => ret PyNone
  end.

(** The loop of [fit] over [self.steps_[:-1]]. *)
Fixpoint fit_loop (l : list (string * addr))
    (X y sample_weight X_init : pyval) : M pyval :=
  match l with
  | [] => ret X
  | (step_tag, step) :: l' =>
      X <- _return_X step_tag X X_init;;
      X <- _pipeline_fit_transform step_tag step X y sample_weight;;
      fit_loop l' X y sample_weight X_init
  end.

Definition fit (X y sample_weight : pyval) : M unit :=
  lift (check_allowed_types X "X" [PandasDataFrame; Dictionary]);;
  lift (check_allowed_types y "y" [PandasSeries; Dictionary]);;
  match sample_weight with
  | PyNone => ret tt
  | _ => lift (check_allowed_types sample_weight "sample_weight"
                 [PandasSeries; Dictionary])
  end;;
  X_init <- _copy_X_if_use_init_data X;;
  copies <- (l <- gets steps;; deepcopy l);;
  set_steps_ copies;;
  l <- get_steps_;;
  X <- fit_loop (removelast l) X y sample_weight X_init;;
  l <- get_steps_;;
  final <- last_item l;;
  let final_step_tag := final.1 in
  let final_step := final.2 in
  X <- _return_X final_step_tag X X_init;;
  _pipeline_fit final_step_tag final_step X y sample_weight;;
  r <- get_rules final_step;;
  set_rules r.

(** The loop of [transform] over [self.steps_], and of [predict] over
    [self.steps_[:-1]]. *)
Fixpoint transform_loop (l : list (string * addr)) (X X_init : pyval)
  : M pyval :=
  match l with
  | [] => ret X
  | (step_tag, step) :: l' =>
      X <- _return_X step_tag X X_init;;
      X <- _pipeline_transform step_tag step X;;
      transform_loop l' X X_init
  end.

Definition predict (X : pyval) : M pyval :=
  lift (check_allowed_types X "X" [PandasDataFrame; Dictionary]);;
  X_init <- _copy_X_if_use_init_data X;;
  l <- get_steps_;;
  X <- transform_loop (removelast l) X X_init;;
  l <- get_steps_;;
  final <- last_item l;;
  let final_step_tag := final.1 in
  let final_step := final.2 in
  X <- _return_X final_step_tag X X_init;;
  _pipeline_predict final_step X.

Definition transform (X : pyval) : M pyval :=
  lift (check_allowed_types X "X" [PandasDataFrame; Dictionary]);;
  X_init <- _copy_X_if_use_init_data X;;
  l <- get_steps_;;
  transform_loop l X X_init.

Definition fit_transform (X y sample_weight : pyval) : M pyval :=
  fit X y sample_weight;;
  transform X.

Definition fit_predict (X y sample_weight : pyval) : M pyval :=
  fit X y sample_weight;;
  predict X.

End Methods.

End LinearPipeline.

Import LinearPipeline.

(** ** Vocabulary of the properties *)

Section Vocabulary.
Context `{StepContract}.

(** The dispatch calls logged between two stores. *)
Definition events_since (w w' : world) : list event :=
  drop (length (trace w)) (trace w').

(** The choice [_return_X] makes, as a function of [self.use_init_data]. *)
Definition selected_X (tags : option (list string)) (step_tag : string)
    (X X_init : pyval) : pyval :=
  match tags with
  | Some l => if decide (step_tag ∈ l) then X_init else X
  | None => X
  end.

(** The three operations that walk the steps, as one family. *)
Inductive call : Type :=
| CallFit (X y sample_weight : pyval)
| CallTransform (X : pyval)
| CallPredict (X : pyval).

Definition run (c : call) : M pyval :=
  match c with
  | CallFit X y sample_weight => fit X y sample_weight;; ret PyNone
  | CallTransform X => transform X
  | CallPredict X => predict X
  end.

Definition input_of (c : call) : pyval :=
  match c with
  | CallFit X _ _ | CallTransform X | CallPredict X => X
  end.

(** The capability a call uses on the steps before the last, and on the
    last one. *)
Definition inner_method (c : call) : method :=
  match c with
  | CallFit _ _ _ => FitTransform
  | CallTransform _ | CallPredict _ => Transform
  end.

Definition final_method (c : call) : method :=
  match c with
  | CallFit _ _ _ => Fit
  | CallTransform _ => Transform
  | CallPredict _ => Predict
  end.

(** The capability run on each step of [l], in order. *)
Definition plan (inner final : method) (l : list (string * addr))
  : list (method * (string * addr)) :=
  match last l with
  | Some x => ((λ s, (inner, s)) <$> removelast l) ++ [(final, x)]
  | None => []
  end.

(** [chain tags X_init X p tr r]: the events [tr] are the dispatch calls
    of a walk over the steps of [p] that starts with the running value
    [X]; each step is given what [_return_X] selects, its output becomes
    the running value, and the walk ends with [r]: the last running value,
    or the exception of the step that raised. *)
Inductive chain (tags : option (list string)) (X_init : pyval)
  : pyval → list (method * (string * addr)) → list event → exn + pyval → Prop :=
| chain_done X : chain tags X_init X [] [] (inr X)
| chain_raise X m t a p e err :
    ev_method e = m → ev_step e = a →
    ev_X e = selected_X tags t X X_init →
    ev_out e = inl err →
    chain tags X_init X ((m, (t, a)) :: p) [e] (inl err)
| chain_step X m t a p e X' tr r :
    ev_method e = m → ev_step e = a →
    ev_X e = selected_X tags t X X_init →
    ev_out e = inr X' →
    chain tags X_init X' p tr r →
    chain tags X_init X ((m, (t, a)) :: p) (e :: tr) r.

(** The data objects after the calls of [tr] have written theirs. *)
Definition replay (d : nat → payload) (tr : list event) : nat → payload :=
  foldl (λ d e, write (ev_updates e) d) d tr.

(** [tracked w tr w']: the events [tr] account for what happened to the
    data and to the step objects between [w] and [w'].  The data objects
    are those of [w] with the writes of the calls; each call found in the
    [X] it was handed what the calls before it had left there; a call on a
    step object that no earlier call was on found the object as it was in
    [w]; and a step object no call was on is as it was. *)
Definition tracked (w : world) (tr : list event) (w' : world) : Prop :=
  data w' = replay (data w) tr ∧
  (∀ i e, tr !! i = Some e →
          ev_found e = found (replay (data w) (take i tr)) (ev_X e)) ∧
  (∀ i e, tr !! i = Some e →
          (∀ j e0, j < i → tr !! j = Some e0 → ev_step e0 ≠ ev_step e) →
          ev_state e = heap w (ev_step e)) ∧
  (∀ a, (∀ e, e ∈ tr → ev_step e ≠ a) → heap w' a = heap w a).

(** What a walk over [p] does to the store: the pipeline object and the
    allocation pointers stay as they are, only the step objects of [p] are
    touched, and the log grows by the events of the walk, which account
    for the changes. *)
Definition walked (tags : option (list string)) (X_init X : pyval)
    (p : list (method * (string * addr))) (w w' : world)
    (r : exn + pyval) : Prop :=
  self w' = self w ∧ next_addr w' = next_addr w ∧ next_oid w' = next_oid w ∧
  (∀ a, a ∉ (λ x, x.2.2) <$> p → heap w' a = heap w a) ∧
  ∃ tr, trace w' = trace w ++ tr ∧ chain tags X_init X p tr r ∧
        tracked w tr w'.

(** The arguments of a call pass its type checks. *)
Definition accepted (c : call) : Prop :=
  match c with
  | CallFit X y sample_weight =>
      type_of X ∈ [PandasDataFrame; Dictionary] ∧
      type_of y ∈ [PandasSeries; Dictionary] ∧
      type_of sample_weight ∈ [ClassNoneType; PandasSeries; Dictionary]
  | CallTransform X | CallPredict X =>
      type_of X ∈ [PandasDataFrame; Dictionary]
  end.

(** Every configured step can be copied. *)
Definition copyable (w : world) : Prop :=
  ∀ t a, (t, a) ∈ steps (self w) → step_uncopyable (heap w a) = None.

(** The steps a call walks are there for it: [fit] can copy the
    configured ones, [transform] and [predict] find [steps_] bound. *)
Definition ready (c : call) (w : world) : Prop :=
  match c with
  | CallFit _ _ _ => copyable w
  | CallTransform _ | CallPredict _ => is_Some (steps_ (self w))
  end.



(** A sequence of [transform] and [predict] calls on one pipeline, each
    run in the store the previous one left, whether it raised or not. *)
Inductive query : Type :=
| QTransform (X : pyval)
| QPredict (X : pyval).

Definition run_query (q : query) (w : world) : world :=
  match q with
  | QTransform X => (transform X w).2
  | QPredict X => (predict X w).2
  end.

Definition run_queries (qs : list query) (w : world) : world :=
  foldl (λ w q, run_query q w) w qs.

(** [fit] followed by [transform], and [fit] followed by [predict], as
    two calls made one after the other: the second call is made in the
    store the first one left, and is not made when the first raises. *)
Definition fit_then_transform (X y sample_weight : pyval)
  : world → (exn + pyval) * world :=
  λ w, match fit X y sample_weight w with
       | (inl e, w1) => (inl e, w1)
       | (inr _, w1) => transform X w1
       end.

Definition fit_then_predict (X y sample_weight : pyval)
  : world → (exn + pyval) * world :=
  λ w, match fit X y sample_weight w with
       | (inl e, w1) => (inl e, w1)
       | (inr _, w1) => predict X w1
       end.

End Vocabulary.

(** ** A small pipeline to run the methods on *)

Module Toy.

Definition frames : Frames := {| table := list nat; column := list nat |}.

#[local] Existing Instance frames.

(** A step whose transform gives a new table with one more column, and
    whose fit counts.  In state 9 it holds something that cannot be
    copied. *)
Definition widen (X : pyval) : pyval :=
  match X with
  | DataFrame o => DataFrame (o + 100)
  | _ => X
  end.

Definition columns (d : nat → payload) (X : pyval) : list nat :=
  match found d X with
  | Table t => t
  | _ => []
  end.

Definition widened (d : nat → payload) (X : pyval) : list (nat * payload) :=
  match X with
  | DataFrame o => [(o + 100, Table (length (columns d X) :: columns d X))]
  | _ => []
  end.

Definition contract : StepContract :=
  {| St := nat;
     Rules := nat;
     step_fit_transform := λ _ s d X _ _, (S s, widened d X, inr (widen X));
     step_fit := λ _ s _ _ _ _, (S s, [], inr tt);
     step_transform := λ _ s d X, (s, widened d X, inr (widen X));
     step_predict := λ s _ _, (s, [(50, Column [s])], inr (Series 50));
     step_rules := λ s, Some s;
     step_uncopyable := λ s, if decide (s = 9) then Some (TypeError "cannot pickle")
                             else None |}.

#[local] Existing Instance contract.

(** A table of one column and a series, and the store that holds them. *)
Definition X0 : pyval := DataFrame 0.
Definition y0 : pyval := Series 1.

Definition store : nat → payload :=
  <[0 := Table [7]]> (<[1 := Column [1]]> (λ _, NoData)).

(** What [X0.copy()] gives in a store whose next object identity is 2. *)
Definition X0_copy : pyval := DataFrame 2.

Definition gen_opt : list (string * addr) := [("gen", 0); ("opt", 1)].

(** The store right after [LinearPipeline(gen_opt, use_init_data)]. *)
Definition unfitted (tags : option (list string)) : world :=
  {| heap := λ _, 0; next_addr := 2; data := store; next_oid := 2;
     trace := [];
     self := {| steps := gen_opt; use_init_data := tags;
                steps_ := None; rules := None |} |}.

Definition fitted (tags : option (list string)) : world :=
  (fit X0 y0 PyNone (unfitted tags)).2.


(** What the tables of these runs hold: [X0] and its copy one column, an
    output of "gen" two. *)
Definition contents (X : pyval) : list nat :=
  match X with
  | DataFrame o => if decide (o < 100) then [7] else [1; 7]
  | _ => []
  end.

(** The calls [fit] makes on the copies of the two steps; [X_in] is what
    the step is given. *)
Definition gen_event (X_in : pyval) : event :=
  {| ev_method := FitTransform; ev_tag := Some "gen"; ev_step := 2;
     ev_state := 0; ev_X := X_in; ev_found := Table (contents X_in);
     ev_updates := match oid_of X_in with
                   | Some o => [(o + 100, Table [1; 7])]
                   | None => []
                   end;
     ev_target := Some (y0, PyNone);
     ev_out := inr (widen X_in) |}.

Definition opt_event (X_in : pyval) : event :=
  {| ev_method := Fit; ev_tag := Some "opt"; ev_step := 3;
     ev_state := 0; ev_X := X_in; ev_found := Table (contents X_in);
     ev_updates := [];
     ev_target := Some (y0, PyNone);
     ev_out := inr PyNone |}.

(** What the [predict] of a step returns, and the call [predict] makes on
    the copy of "opt" when that is in state [s]. *)
Definition prediction : pyval := Series 50.

Definition predict_event (X_in : pyval) (s : nat) : event :=
  {| ev_method := Predict; ev_tag := None; ev_step := 3;
     ev_state := s; ev_X := X_in; ev_found := Table (contents X_in);
     ev_updates := [(50, Column [s])];
     ev_target := None; ev_out := inr prediction |}.

(** The store right after [LinearPipeline([])]. *)
Definition empty : world :=
  {| heap := λ _, 0; next_addr := 0; data := store; next_oid := 2;
     trace := [];
     self := {| steps := []; use_init_data := None;
                steps_ := None; rules := None |} |}.

(** Steps of which the one tagged "gen" cannot be fitted, and none has a
    [rules] attribute when [with_rules] is off. *)
Definition brittle (with_rules : bool) : StepContract :=
  {| St := nat;
     Rules := nat;
     step_fit_transform := λ tag s d X _ _,
       if decide (tag = "gen") then (s, [], inl (StepError "gen cannot fit"))
       else (S s, widened d X, inr (widen X));
     step_fit := λ _ s _ _ _ _, (S s, [], inr tt);
     step_transform := λ _ s d X, (s, widened d X, inr (widen X));
     step_predict := λ s _ _, (s, [(50, Column [s])], inr (Series 50));
     step_rules := λ s, if with_rules then Some s else None;
     step_uncopyable := λ _, None |}.

(** The store right after [LinearPipeline(l)] over these steps. *)
Definition fresh (with_rules : bool) (l : list (string * addr))
  : @world frames (brittle with_rules) :=
  @World frames (brittle with_rules) (λ _, 0) 2 store 2 []
    (@Self frames (brittle with_rules) l None None None).

(** A pipeline of these steps that an earlier [fit] left with [rules]. *)
Definition refitted (with_rules : bool) (l : list (string * addr))
  : @world frames (brittle with_rules) :=
  @World frames (brittle with_rules) (λ _, 0) 4 store 2 []
    (@Self frames (brittle with_rules) l None (Some [("opt", 3)]) (Some 7)).

(** The call a refit makes on its copy of a "gen" that cannot be
    fitted. *)
Definition gen_failure : @event frames (brittle true) :=
  @Event frames (brittle true) FitTransform (Some "gen") 4 0 X0
    (Table [7]) [] (Some (y0, PyNone)) (inl (StepError "gen cannot fit")).




(** The state mapping of a fitted pipeline, as [ClassAccessor.get] is
    given it. *)
Definition params : gmap string (gmap string nat) :=
  {[ "gen" := {[ "n_rules" := 3 ]} ]}.

End Toy.

(** * Properties *)

(** ** Walks and their events *)

Section ChainFacts.
Context {FR : Frames} {SC : StepContract}.
Implicit Types (X : pyval) (tr : list event) (w : world).
Implicit Types (p : list (method * (string * addr))).

Lemma events_since_app w w' tr :
  trace w' = trace w ++ tr → events_since w w' = tr.
Proof. unfold events_since. intros ->. by rewrite drop_app_length. Qed.

Lemma chain_app tags X_init X p1 tr1 X' p2 tr2 r :
  chain tags X_init X p1 tr1 (inr X') →
  chain tags X_init X' p2 tr2 r →
  chain tags X_init X (p1 ++ p2) (tr1 ++ tr2) r.
Proof.
  intros Hc1. remember (inr X') as r1 eqn:Hr1.
  induction Hc1; intros Hc2; simplify_eq/=; [done|].
  econstructor; eauto.
Qed.

Lemma chain_app_raise tags X_init X p1 tr1 err p2 :
  chain tags X_init X p1 tr1 (inl err) →
  chain tags X_init X (p1 ++ p2) tr1 (inl err).
Proof.
  intros Hc1. remember (inl err) as r1 eqn:Hr1.
  induction Hc1; simplify_eq/=.
  - by constructor.
  - econstructor; eauto.
Qed.

(** The event at position [i] belongs to the step at position [i]. *)
Lemma chain_lookup tags X_init X p tr r i e :
  chain tags X_init X p tr r → tr !! i = Some e →
  ∃ m t a, p !! i = Some (m, (t, a)) ∧ ev_method e = m ∧ ev_step e = a.
Proof.
  intros Hc. revert i. induction Hc; intros [|i] Hi; simplify_eq/=; eauto 10.
Qed.

(** The first step is given what [_return_X] selects from the input. *)
Lemma chain_first tags X_init X p tr r e m t a :
  chain tags X_init X p tr r → tr !! 0 = Some e → p !! 0 = Some (m, (t, a)) →
  ev_X e = selected_X tags t X X_init.
Proof. intros Hc He Hp. destruct Hc; by simplify_eq/=. Qed.

(** Each later step is given what [_return_X] selects from the output of
    the step before it. *)
Lemma chain_next tags X_init X p tr r i e e' m t a :
  chain tags X_init X p tr r →
  tr !! i = Some e → tr !! S i = Some e' → p !! S i = Some (m, (t, a)) →
  ∃ Xo, ev_out e = inr Xo ∧ ev_X e' = selected_X tags t Xo X_init.
Proof.
  intros Hc. revert i. induction Hc; intros [|i] Hi Hi' Hp; simplify_eq/=.
  - exists X'. split; [done|]. destruct Hc; by simplify_eq/=.
  - eauto.
Qed.

(** A step whose tag is listed is given [X_init]. *)
Lemma chain_listed tags X_init X p tr r i e m t a l :
  chain tags X_init X p tr r →
  tr !! i = Some e → p !! i = Some (m, (t, a)) →
  tags = Some l → t ∈ l → ev_X e = X_init.
Proof.
  intros Hc. revert i.
  induction Hc as [|? ? ? ? ? ? ? ? ? HX|? ? ? ? ? ? ? ? ? ? ? HX];
    intros [|i] Hi Hp -> Hin; simplify_eq/=; eauto;
    rewrite HX; rewrite decide_True; done.
Qed.

(** A walk that ends without an exception ran every step once. *)
Lemma chain_complete tags X_init X p tr X' :
  chain tags X_init X p tr (inr X') →
  ev_method <$> tr = fst <$> p ∧ ev_step <$> tr = (λ x, x.2.2) <$> p.
Proof.
  intros Hc. remember (inr X') as r eqn:Hr.
  induction Hc; simplify_eq/=; [done|].
  destruct IHHc as [-> ->]; done.
Qed.

(** The events of a walk never outnumber its steps. *)
Lemma chain_length tags X_init X p tr r :
  chain tags X_init X p tr r → length tr ≤ length p.
Proof. induction 1; simpl; lia. Qed.

(** A walk runs every step, unless a step raises, which ends it. *)
Lemma chain_progress tags X_init X p tr r :
  chain tags X_init X p tr r →
  length tr = length p ∨
  ∃ e err, last tr = Some e ∧ ev_out e = inl err ∧ r = inl err.
Proof.
  intros Hc. induction Hc as [|? ? ? ? ? e err|? ? ? ? ? ? ? tr ? ? ? ? ? ? IH];
    simpl; [by left|right; by exists e, err|].
  destruct IH as [->|(e' & err & Hlast & ? & ?)]; [by left|right].
  exists e', err. split; [|done]. destruct tr; [done|].
  by rewrite last_cons, Hlast.
Qed.

(** The exception of a walk is that of its last call. *)
Lemma chain_failed tags X_init X p tr err :
  chain tags X_init X p tr (inl err) →
  ∃ e, last tr = Some e ∧ ev_out e = inl err.
Proof.
  intros Hc. remember (inl err) as r eqn:Hr.
  induction Hc as [|? ? ? ? ? e|? ? ? ? ? ? ? tr ? ? ? ? ? ? IH];
    simplify_eq/=; [by exists e|].
  destruct IH as (e' & Hlast & ?); [done|]. exists e'. split; [|done].
  destruct tr; [done|]. by rewrite last_cons, Hlast.
Qed.


(** *** Events and the store *)


Lemma replay_app (d : nat → payload) tr1 tr2 :
  replay d (tr1 ++ tr2) = replay (replay d tr1) tr2.
Proof. apply foldl_app. Qed.


Lemma tracked_nil w w' :
  data w' = data w → heap w' = heap w → tracked w [] w'.
Proof. intros Hd Hh. split_and!; [done|done|done|]. intros. by rewrite Hh. Qed.

Lemma tracked_app w tr1 w1 tr2 w2 :
  tracked w tr1 w1 → tracked w1 tr2 w2 → tracked w (tr1 ++ tr2) w2.
Proof.
  intros (Hd1 & Hf1 & Hs1 & Hh1) (Hd2 & Hf2 & Hs2 & Hh2). split_and!.
  - by rewrite replay_app, <- Hd1.
  - intros i e Hi. destruct (decide (i < length tr1)) as [Hlt|Hge].
    + rewrite lookup_app_l in Hi by done. rewrite take_app_le by lia.
      by apply Hf1.
    + rewrite lookup_app_r in Hi by lia. rewrite take_app_ge by lia.
      rewrite replay_app, <- Hd1. by apply Hf2.
  - intros i e Hi Hfirst. destruct (decide (i < length tr1)) as [Hlt|Hge].
    + rewrite lookup_app_l in Hi by done. apply (Hs1 i); [done|].
      intros j e0 Hj Hj0. apply (Hfirst j); [done|].
      rewrite lookup_app_l; [done|lia].
    + rewrite lookup_app_r in Hi by lia. rewrite (Hs2 _ _ Hi).
      * apply Hh1. intros e0 [j Hj]%list_elem_of_lookup.
        pose proof (lookup_lt_Some _ _ _ Hj) as Hlt.
        apply (Hfirst j); [lia|]. by rewrite lookup_app_l.
      * intros j e0 Hj Hj0. apply (Hfirst (length tr1 + j)); [lia|].
        rewrite lookup_app_r by lia.
        by replace (length tr1 + j - length tr1) with j by lia.
  - intros a Ha. rewrite Hh2, Hh1; [done|..];
      intros e He; apply Ha, elem_of_app; auto.
Qed.

(** [tracked] looks at the data and at the step objects only. *)
Lemma tracked_ext w tr w' w0 w0' :
  data w0 = data w → heap w0 = heap w →
  data w0' = data w' → heap w0' = heap w' →
  tracked w tr w' → tracked w0 tr w0'.
Proof.
  intros Hd Hh Hd' Hh' (H1 & H2 & H3 & H4).
  unfold tracked. rewrite Hd, Hh, Hd', Hh'. by split_and!.
Qed.

End ChainFacts.

(** ** What each method does to the store *)

Section StoreFacts.
Context {FR : Frames} {SC : StepContract}.
Implicit Types (X : pyval) (tr : list event) (w : world).
Implicit Types (l : list (string * addr)).
Implicit Types (p : list (method * (string * addr))).

Lemma bind_run {A B} (m : M A) (k : A → M B) w :
  bind m k w = match m w with
               | (inr a, w1) => k a w1
               | (inl e, w1) => (inl e, w1)
               end.
Proof. done. Qed.

Lemma get_steps_run w :
  get_steps_ w = match steps_ (self w) with
                 | Some l => (inr l, w)
                 | None => (inl (MissingStateError "steps_"), w)
                 end.
Proof. unfold get_steps_, bind, gets. by destruct (steps_ (self w)). Qed.

Lemma last_item_run {A} (xs : list A) w :
  last_item xs w = match last xs with
                   | Some x => (inr x, w)
                   | None => (inl IndexError, w)
                   end.
Proof. unfold last_item. by destruct (last xs). Qed.

Lemma return_X_run step_tag X X_init w :
  _return_X step_tag X X_init w
  = (inr (selected_X (use_init_data (self w)) step_tag X X_init), w).
Proof.
  unfold _return_X, selected_X, bind, gets, ret.
  destruct (use_init_data (self w)); [case_decide|]; done.
Qed.

(** Without a populated [use_init_data] nothing is copied. *)
Lemma copy_X_skipped X w :
  use_init_data (self w) = None ∨ use_init_data (self w) = Some [] →
  _copy_X_if_use_init_data X w = (inr PyNone, w).
Proof.
  unfold _copy_X_if_use_init_data, bind, gets, ret. by intros [-> | ->].
Qed.

(** With a populated one, a table or a mapping is copied into a new
    object. *)
Lemma copy_X_made X w (tag : string) (tags : list string) :
  use_init_data (self w) = Some (tag :: tags) →
  type_of X ∈ [PandasDataFrame; Dictionary] →
  ∃ X_init w1,
    _copy_X_if_use_init_data X w = (inr X_init, w1) ∧
    type_of X_init = type_of X ∧ oid_of X_init = Some (next_oid w) ∧
    data w1 = <[next_oid w := found (data w) X]> (data w) ∧
    next_oid w1 = S (next_oid w) ∧
    heap w1 = heap w ∧ next_addr w1 = next_addr w ∧
    trace w1 = trace w ∧ self w1 = self w.
Proof.
  intros Htags HX.
  unfold _copy_X_if_use_init_data, bind, gets, ret. rewrite Htags.
  destruct X; simpl in HX; try (by eexists _, _);
    exfalso; revert HX; by apply (bool_decide_unpack _).
Qed.

(** Whatever it does, it leaves the steps, the log and the pipeline
    alone. *)
Lemma copy_X_frame X w :
  let w1 := (_copy_X_if_use_init_data X w).2 in
  heap w1 = heap w ∧ next_addr w1 = next_addr w ∧
  trace w1 = trace w ∧ self w1 = self w.
Proof.
  unfold _copy_X_if_use_init_data, bind, gets, ret, copy.
  destruct (use_init_data (self w)) as [[|? ?]|]; [done| |done].
  by destruct X.
Qed.

(** A dispatch call is a walk of one step. *)
Lemma dispatch_walked tags X_init X m tag t a target run w :
  let res := dispatch m tag a (selected_X tags t X X_init) target run w in
  walked tags X_init X [(m, (t, a))] w res.2 res.1.
Proof.
  unfold dispatch. destruct (run (heap w a) (data w)) as [[s' ups] out] eqn:Hrun.
  cbn.
  repeat split; try done.
  - intros b Hb. cbn. rewrite fn_lookup_insert_ne; [done|]. set_solver.
  - eexists; split; [done|]. split.
    + destruct out as [err|X']; [by constructor|].
      econstructor; try done. constructor.
    + split_and!; cbn.
      * done.
      * intros [|i] e Hi; by simplify_eq/=.
      * intros [|i] e Hi _; by simplify_eq/=.
      * intros b Hb. apply fn_lookup_insert_ne. intros <-.
        eapply Hb; [apply list_elem_of_here|done].
Qed.

Lemma walked_nil tags X_init X w : walked tags X_init X [] w w (inr X).
Proof.
  repeat split. exists []. rewrite app_nil_r.
  split_and!; [done|constructor|by apply tracked_nil].
Qed.

Lemma walked_app tags X_init X p1 w w1 X' p2 w2 r :
  walked tags X_init X p1 w w1 (inr X') →
  walked tags X_init X' p2 w1 w2 r →
  walked tags X_init X (p1 ++ p2) w w2 r.
Proof.
  intros (Hs1 & Ha1 & Ho1 & Hh1 & tr1 & Ht1 & Hc1 & Hk1)
         (Hs2 & Ha2 & Ho2 & Hh2 & tr2 & Ht2 & Hc2 & Hk2).
  repeat split; try congruence.
  - intros a Ha. rewrite fmap_app in Ha.
    rewrite Hh2, Hh1; [done| |]; intros Hin; apply Ha, elem_of_app; auto.
  - exists (tr1 ++ tr2). split_and!.
    + by rewrite Ht2, Ht1, app_assoc.
    + by eapply chain_app.
    + by eapply tracked_app.
Qed.

Lemma walked_app_raise tags X_init X p1 w w1 err p2 :
  walked tags X_init X p1 w w1 (inl err) →
  walked tags X_init X (p1 ++ p2) w w1 (inl err).
Proof.
  intros (Hs1 & Ha1 & Ho1 & Hh1 & tr1 & Ht1 & Hc1 & Hk1).
  repeat split; try done.
  - intros a Ha. rewrite fmap_app in Ha. apply Hh1.
    intros Hin. apply Ha, elem_of_app. auto.
  - exists tr1. split_and!; [done|by apply chain_app_raise|done].
Qed.

(** A walk reads [use_init_data] only, which it does not change, so the
    walks of one call can be told from the store the call started in. *)
Lemma fit_loop_walked l X y sample_weight X_init w r w' :
  fit_loop l X y sample_weight X_init w = (r, w') →
  walked (use_init_data (self w)) X_init X
    ((λ s, (FitTransform, s)) <$> l) w w' r.
Proof.
  revert X w. induction l as [|[t a] l IH]; intros X w Hrun; simpl in Hrun.
  { unfold ret in Hrun. simplify_eq. apply walked_nil. }
  unfold bind at 1 in Hrun. rewrite return_X_run in Hrun.
  unfold bind at 1, _pipeline_fit_transform in Hrun.
  pose proof (dispatch_walked (use_init_data (self w)) X_init X FitTransform
                (Some t) t a (Some (y, sample_weight))
                (λ s d, step_fit_transform t s d
                          (selected_X (use_init_data (self w)) t X X_init)
                          y sample_weight) w) as Hd.
  simpl in Hd.
  destruct (dispatch _ _ _ _ _ _ w) as [[err|X'] w1]; simpl in *.
  - simplify_eq. exact (walked_app_raise _ _ _ [_] _ _ _ _ Hd).
  - refine (walked_app _ _ _ [_] _ _ _ _ _ _ Hd _).
    destruct Hd as (Hs & _). rewrite <- Hs. by apply IH.
Qed.

Lemma transform_loop_walked l X X_init w r w' :
  transform_loop l X X_init w = (r, w') →
  walked (use_init_data (self w)) X_init X
    ((λ s, (Transform, s)) <$> l) w w' r.
Proof.
  revert X w. induction l as [|[t a] l IH]; intros X w Hrun; simpl in Hrun.
  { unfold ret in Hrun. simplify_eq. apply walked_nil. }
  unfold bind at 1 in Hrun. rewrite return_X_run in Hrun.
  unfold bind at 1, _pipeline_transform in Hrun.
  pose proof (dispatch_walked (use_init_data (self w)) X_init X Transform
                (Some t) t a None
                (λ s d, step_transform t s d
                          (selected_X (use_init_data (self w)) t X X_init))
                w) as Hd.
  simpl in Hd.
  destruct (dispatch _ _ _ _ _ _ w) as [[err|X'] w1]; simpl in *.
  - simplify_eq. exact (walked_app_raise _ _ _ [_] _ _ _ _ Hd).
  - refine (walked_app _ _ _ [_] _ _ _ _ _ _ Hd _).
    destruct Hd as (Hs & _). rewrite <- Hs. by apply IH.
Qed.

(** *** Lists and plans *)

Lemma removelast_last {A} (xs : list A) x :
  last xs = Some x → removelast xs ++ [x] = xs.
Proof.
  induction xs as [|x1 [|x2 xs] IH]; intros Hl; simplify_eq/=; [done|].
  f_equal. by apply IH.
Qed.

Lemma plan_same m l : plan m m l = (λ s, (m, s)) <$> l.
Proof.
  unfold plan. destruct (last l) as [x|] eqn:Hl.
  - rewrite <- (removelast_last l x) at 2 by done. by rewrite fmap_app.
  - by apply last_None in Hl as ->.
Qed.

Lemma plan_steps inner final l : snd <$> plan inner final l = l.
Proof.
  unfold plan. destruct (last l) as [x|] eqn:Hl.
  - rewrite fmap_app, <- list_fmap_compose. simpl.
    rewrite list_fmap_id. by apply removelast_last.
  - by apply last_None in Hl as ->.
Qed.

Lemma plan_addrs inner final l :
  (λ x, x.2.2) <$> plan inner final l = l.*2.
Proof.
  rewrite <- (plan_steps inner final l) at 2.
  by rewrite <- list_fmap_compose.
Qed.

Lemma plan_lookup inner final l i m t a :
  plan inner final l !! i = Some (m, (t, a)) ↔
  l !! i = Some (t, a) ∧ m = if decide (S i = length l) then final else inner.
Proof.
  unfold plan. destruct (last l) as [x|] eqn:Hl.
  2:{ apply last_None in Hl as ->. split; [done|by intros [? _]]. }
  apply removelast_last in Hl. revert Hl.
  generalize (removelast l). intros l0 <-.
  rewrite length_app. simpl.
  destruct (decide (i < length l0)) as [Hi|Hi].
  - rewrite !lookup_app_l by (by rewrite ?length_fmap).
    rewrite list_lookup_fmap. rewrite decide_False by lia.
    destruct (l0 !! i) as [[t0 a0]|]; simpl.
    + split; [intros [= <- <- <-]; done|intros [[= <- <-] ->]; done].
    + split; [done|by intros [? _]].
  - rewrite !lookup_app_r by (rewrite ?length_fmap; lia).
    rewrite length_fmap.
    destruct (i - length l0) as [|k] eqn:Hk; simpl.
    + rewrite decide_True by lia. destruct x as [tx ax].
      split; [intros [= <- <- <-]; done|intros [[= <- <-] ->]; done].
    + split; [done|by intros [? _]].
Qed.

(** *** The outcomes of [transform] and [predict] *)

Lemma copy_X_checked X w :
  type_of X ∈ [PandasDataFrame; Dictionary] →
  ∃ X_init w1,
    _copy_X_if_use_init_data X w = (inr X_init, w1) ∧
    heap w1 = heap w ∧ next_addr w1 = next_addr w ∧
    trace w1 = trace w ∧ self w1 = self w.
Proof.
  intros HX. destruct (use_init_data (self w)) as [[|tag tags]|] eqn:Htags.
  - exists PyNone, w. rewrite copy_X_skipped; auto.
  - destruct (copy_X_made X w tag tags Htags HX)
      as (X_init & w1 & -> & _ & _ & _ & _ & Hf). by exists X_init, w1.
  - exists PyNone, w. rewrite copy_X_skipped; auto.
Qed.

Lemma transform_outcome X w r w' :
  transform X w = (r, w') →
  ((type_of X ∉ [PandasDataFrame; Dictionary]) ∧
   r = inl (TypeError "X") ∧ w' = w) ∨
  (type_of X ∈ [PandasDataFrame; Dictionary] ∧
   ∃ X_init w1,
     _copy_X_if_use_init_data X w = (inr X_init, w1) ∧
     ((steps_ (self w) = None ∧
       r = inl (MissingStateError "steps_") ∧ w' = w1) ∨
      (∃ l, steps_ (self w) = Some l ∧
            walked (use_init_data (self w)) X_init X
              (plan Transform Transform l) w1 w' r))).
Proof.
  unfold transform. unfold bind at 1, lift, check_allowed_types.
  case_decide as HX; [|intros; simplify_eq; by left].
  intros Hrun. right. split; [done|].
  destruct (copy_X_checked X w HX) as (X_init & w1 & Hcopy & _ & _ & _ & Hs).
  exists X_init, w1. split; [done|].
  rewrite bind_run, Hcopy, bind_run, get_steps_run, Hs in Hrun.
  destruct (steps_ (self w)) as [l|].
  - right. exists l. split; [done|]. rewrite plan_same, <- Hs.
    by apply transform_loop_walked.
  - left. by simplify_eq.
Qed.

Lemma predict_outcome X w r w' :
  predict X w = (r, w') →
  ((type_of X ∉ [PandasDataFrame; Dictionary]) ∧
   r = inl (TypeError "X") ∧ w' = w) ∨
  (type_of X ∈ [PandasDataFrame; Dictionary] ∧
   ∃ X_init w1,
     _copy_X_if_use_init_data X w = (inr X_init, w1) ∧
     ((steps_ (self w) = None ∧
       r = inl (MissingStateError "steps_") ∧ w' = w1) ∨
      (steps_ (self w) = Some [] ∧ r = inl IndexError ∧ w' = w1) ∨
      (∃ l, steps_ (self w) = Some l ∧ l ≠ [] ∧
            walked (use_init_data (self w)) X_init X
              (plan Transform Predict l) w1 w' r))).
Proof.
  unfold predict. unfold bind at 1, lift, check_allowed_types.
  case_decide as HX; [|intros; simplify_eq; by left].
  intros Hrun. right. split; [done|].
  destruct (copy_X_checked X w HX) as (X_init & w1 & Hcopy & _ & _ & _ & Hs).
  exists X_init, w1. split; [done|].
  rewrite bind_run, Hcopy, bind_run, get_steps_run, Hs in Hrun.
  destruct (steps_ (self w)) as [l|] eqn:Hl; [|left; by simplify_eq].
  right. rewrite bind_run in Hrun.
  destruct (last l) as [[t a]|] eqn:Hlast.
  2:{ apply last_None in Hlast as ->. left. simpl in Hrun.
      rewrite bind_run, get_steps_run, Hs, Hl in Hrun.
      rewrite bind_run, last_item_run in Hrun. by simplify_eq/=. }
  right. exists l. split; [done|]. split; [by intros ->|].
  destruct (transform_loop (removelast l) X X_init w1) as [r1 w2] eqn:Hloop.
  apply transform_loop_walked in Hloop. rewrite Hs in Hloop.
  unfold plan. rewrite Hlast.
  destruct r1 as [err|X1].
  { simplify_eq. by apply walked_app_raise. }
  eapply walked_app; [done|].
  pose proof Hloop as (Hs2 & _).
  rewrite bind_run, get_steps_run, Hs2, Hs, Hl in Hrun.
  rewrite bind_run, last_item_run, Hlast in Hrun. simpl in Hrun.
  rewrite bind_run, return_X_run, Hs2, Hs in Hrun.
  unfold _pipeline_predict in Hrun.
  pose proof (dispatch_walked (use_init_data (self w)) X_init X1 Predict
                None t a None
                (λ s d, step_predict s d
                          (selected_X (use_init_data (self w)) t X1 X_init))
                w2) as Hd.
  simpl in Hd. rewrite Hrun in Hd. done.
Qed.

(** *** [deepcopy] *)

(** Whether it raises or not, the copying writes to no object that
    existed, and leaves the data, the pipeline and the log alone. *)
Lemma deepcopy_items_frame l (memo : gmap addr addr) w r w' :
  deepcopy_items memo l w = (r, w') →
  self w' = self w ∧ trace w' = trace w ∧ next_oid w' = next_oid w ∧
  next_addr w ≤ next_addr w' ∧
  (∀ a, a < next_addr w → heap w' a = heap w a) ∧
  data w' = data w.
Proof.
  revert memo w r w'. induction l as [|[t a] l IH]; intros memo w r w' Hrun;
    simpl in Hrun.
  { unfold ret in Hrun. by simplify_eq. }
  destruct (memo !! a) as [a'|] eqn:Hm.
  - rewrite bind_run in Hrun.
    destruct (deepcopy_items memo l w) as [[err|l1] w1] eqn:Hrun1;
      unfold ret in Hrun; simplify_eq; by eapply IH.
  - rewrite bind_run in Hrun. unfold alloc_copy at 1 in Hrun.
    destruct (step_uncopyable (heap w a)) as [err|]; [by simplify_eq|].
    rewrite bind_run in Hrun.
    destruct (deepcopy_items _ l _) as [[err|l1] w1] eqn:Hrun1;
      unfold ret in Hrun; simplify_eq;
      destruct (IH _ _ _ _ Hrun1) as (Hs & Ht & Ho & Hn & Hh & Hd);
      simpl in *; (split_and!; [done|done|done|lia| |done]);
      intros b Hb; rewrite Hh by lia; apply fn_lookup_insert_ne; lia.
Qed.

(** The copies are new objects (or those of [memo]), under the tags of
    the originals. *)
Lemma deepcopy_items_made l (memo : gmap addr addr) w l' w' :
  deepcopy_items memo l w = (inr l', w') →
  l'.*1 = l.*1 ∧
  (∀ a', a' ∈ l'.*2 →
         (∃ a, memo !! a = Some a') ∨ next_addr w ≤ a' < next_addr w').
Proof.
  revert memo w l' w'. induction l as [|[t a] l IH]; intros memo w l' w' Hrun;
    simpl in Hrun.
  { unfold ret in Hrun. simplify_eq. split; [done|].
    intros a' Ha'. by apply elem_of_nil in Ha'. }
  destruct (memo !! a) as [a'|] eqn:Hm.
  - rewrite bind_run in Hrun.
    destruct (deepcopy_items memo l w) as [[err|l1] w1] eqn:Hrun1;
      unfold ret in Hrun; simplify_eq.
    destruct (IH _ _ _ _ Hrun1) as (Hl & Hf). split.
    + simpl. by f_equal.
    + intros b [->|Hb]%elem_of_cons; eauto.
  - rewrite bind_run in Hrun. unfold alloc_copy at 1 in Hrun.
    destruct (step_uncopyable (heap w a)) as [err|]; [by simplify_eq|].
    rewrite bind_run in Hrun.
    destruct (deepcopy_items _ l _) as [[err|l1] w1] eqn:Hrun1;
      unfold ret in Hrun; simplify_eq.
    destruct (IH _ _ _ _ Hrun1) as (Hl & Hf).
    destruct (deepcopy_items_frame _ _ _ _ _ Hrun1) as (_ & _ & _ & Hn & _).
    simpl in *. split.
    + by f_equal.
    + intros b [->|Hb]%elem_of_cons; [right; lia|].
      destruct (Hf b Hb) as [[c Hc]|Hc]; [|right; lia].
      apply lookup_insert_Some in Hc as [[_ <-]|[_ Hc]]; [right; lia|eauto].
Qed.

(** Steps that can be copied are copied. *)
Lemma deepcopy_items_copyable l (memo : gmap addr addr) w :
  (∀ a, a ∈ l.*2 → step_uncopyable (heap w a) = None) →
  ∃ l' w', deepcopy_items memo l w = (inr l', w').
Proof.
  revert memo w. induction l as [|[t a] l IH]; intros memo w Hok; simpl.
  { by exists [], w. }
  assert (step_uncopyable (heap w a) = None) as Ha
    by (apply Hok; simpl; apply list_elem_of_here).
  assert (∀ b, b ∈ l.*2 → step_uncopyable (heap w b) = None) as Hok'
    by (intros; apply Hok; simpl; by apply list_elem_of_further).
  destruct (memo !! a) as [a'|] eqn:Hm.
  - destruct (IH memo w Hok') as (l' & w' & Hrun).
    exists ((t, a') :: l'), w'. by rewrite bind_run, Hrun.
  - rewrite bind_run. unfold alloc_copy at 1. rewrite Ha.
    set (w1 := {| heap := <[next_addr w:=heap w a]> (heap w);
                  next_addr := S (next_addr w); data := data w;
                  next_oid := next_oid w;
                  trace := trace w; self := self w |}).
    destruct (IH (<[a:=next_addr w]> memo) w1) as (l' & w' & Hrun).
    { intros b Hb. simpl.
      destruct (decide (b = next_addr w)) as [->|Hne].
      - by rewrite fn_lookup_insert.
      - rewrite fn_lookup_insert_ne by done. by apply Hok'. }
    exists ((t, next_addr w) :: l'), w'. by rewrite bind_run, Hrun.
Qed.



(** *** The outcomes of [fit] *)

Lemma check_run X x_name allowed w :
  lift (check_allowed_types X x_name allowed) w
  = if decide (type_of X ∈ allowed) then (inr tt, w)
    else (inl (TypeError x_name), w).
Proof. unfold lift, check_allowed_types. by case_decide. Qed.

(** The check of [sample_weight] is skipped for [None]. *)
Lemma check_weight_run sample_weight w :
  match sample_weight with
  | PyNone => ret tt
  | _ => lift (check_allowed_types sample_weight "sample_weight"
                 [PandasSeries; Dictionary])
  end w
  = if decide (type_of sample_weight
               ∈ [ClassNoneType; PandasSeries; Dictionary])
    then (inr tt, w) else (inl (TypeError "sample_weight"), w).
Proof. destruct sample_weight; by rewrite ?check_run. Qed.

Lemma fit_outcome X y sample_weight w r w' :
  fit X y sample_weight w = (r, w') →
  ((type_of X ∉ [PandasDataFrame; Dictionary]) ∧
   r = inl (TypeError "X") ∧ w' = w) ∨
  ((type_of y ∉ [PandasSeries; Dictionary]) ∧
   r = inl (TypeError "y") ∧ w' = w) ∨
  ((type_of sample_weight ∉ [ClassNoneType; PandasSeries; Dictionary]) ∧
   r = inl (TypeError "sample_weight") ∧ w' = w) ∨
  (type_of X ∈ [PandasDataFrame; Dictionary] ∧
   ∃ X_init w1 err,
     _copy_X_if_use_init_data X w = (inr X_init, w1) ∧
     deepcopy (steps (self w)) w1 = (inl err, w') ∧ r = inl err) ∨
  (type_of X ∈ [PandasDataFrame; Dictionary] ∧
   ∃ X_init w1 l w2,
     _copy_X_if_use_init_data X w = (inr X_init, w1) ∧
     deepcopy (steps (self w)) w1 = (inr l, w2) ∧
     let w3 := (set_steps_ l w2).2 in
     ((l = [] ∧ r = inl IndexError ∧ w' = w3) ∨
      (∃ t a r0 w4,
         last l = Some (t, a) ∧
         walked (use_init_data (self w)) X_init X
           (plan FitTransform Fit l) w3 w4 r0 ∧
         match r0 with
         | inl e => r = inl e ∧ w' = w4
         | inr _ =>
             match step_rules (heap w4 a) with
             | Some v => r = inr tt ∧ w' = (set_rules v w4).2
             | None => r = inl (AttributeError "rules") ∧ w' = w4
             end
         end))).
Proof.
  unfold fit. rewrite bind_run, check_run.
  case_decide as HX; [|intros; simplify_eq; by left].
  rewrite bind_run, check_run.
  case_decide as Hy; [|intros; simplify_eq; right; by left].
  rewrite bind_run, check_weight_run.
  case_decide as Hsw; [|intros; simplify_eq; right; right; by left].
  intros Hrun.
  destruct (copy_X_checked X w HX)
    as (X_init & w1 & Hcopy & _ & _ & _ & Hs1).
  rewrite bind_run, Hcopy in Hrun.
  rewrite bind_run in Hrun.
  rewrite (bind_run (gets steps)) in Hrun. unfold gets at 1 in Hrun.
  rewrite Hs1 in Hrun. unfold deepcopy in *.
  destruct (deepcopy_items ∅ (steps (self w)) w1) as [[err|l] w2] eqn:Hdc.
  { do 3 right. left. split; [done|]. exists X_init, w1, err.
    by simplify_eq. }
  destruct (deepcopy_items_frame _ _ _ _ _ Hdc) as (Hs2 & _).
  do 4 right. split; [done|].
  exists X_init, w1, l, w2. do 2 (split; [done|]).
  rewrite bind_run in Hrun. unfold set_steps_ at 1, modify in Hrun.
  unfold set_steps_, modify. simpl.
  set (w3 := {| heap := heap w2; next_addr := next_addr w2;
                data := data w2;
                next_oid := next_oid w2; trace := trace w2;
                self := {| steps := steps (self w2);
                           use_init_data := use_init_data (self w2);
                           steps_ := Some l;
                           rules := rules (self w2) |} |}) in *.
  assert (use_init_data (self w3) = use_init_data (self w)) as Hu3
    by (simpl; by rewrite Hs2, Hs1).
  rewrite bind_run, get_steps_run in Hrun. simpl in Hrun.
  rewrite bind_run in Hrun.
  destruct (last l) as [[t a]|] eqn:Hlast.
  2:{ apply last_None in Hlast as ->. left. simpl in Hrun.
      rewrite bind_run, get_steps_run in Hrun. simpl in Hrun.
      rewrite bind_run, last_item_run in Hrun. by simplify_eq/=. }
  right. exists t, a.
  destruct (fit_loop (removelast l) X y sample_weight X_init w3)
    as [r1 w4] eqn:Hloop.
  apply fit_loop_walked in Hloop. rewrite Hu3 in Hloop.
  unfold plan. rewrite Hlast.
  destruct r1 as [err|X1].
  { simplify_eq. exists (inl err), w'. split; [done|].
    split; [by apply walked_app_raise|done]. }
  pose proof Hloop as (Hs4 & _).
  rewrite bind_run, get_steps_run, Hs4 in Hrun. simpl in Hrun.
  rewrite bind_run, last_item_run, Hlast in Hrun. simpl in Hrun.
  rewrite bind_run, return_X_run, Hs4, Hu3 in Hrun.
  rewrite bind_run in Hrun. unfold _pipeline_fit in Hrun.
  rewrite bind_run in Hrun.
  pose proof (dispatch_walked (use_init_data (self w)) X_init X1 Fit
                (Some t) t a (Some (y, sample_weight))
                (λ s d, let '(s', ups, r) :=
                          step_fit t s d
                            (selected_X (use_init_data (self w)) t X1 X_init)
                            y sample_weight in
                        (s', ups, match r with
                                  | inl e => inl e
                                  | inr _ => inr PyNone
                                  end))
                w4) as Hd.
  simpl in Hd.
  destruct (dispatch Fit _ _ _ _ _ w4) as [r5 w5]. simpl in Hd.
  exists r5, w5. split; [done|]. split; [by eapply walked_app|].
  destruct r5 as [err|X5]; [by simplify_eq|].
  unfold ret at 1 in Hrun. rewrite bind_run in Hrun.
  unfold get_rules at 1 in Hrun.
  destruct (step_rules (heap w5 a)); unfold set_rules, modify in *;
    by simplify_eq.
Qed.

(** A [fit] whose copying of the steps raises has called no step and
    written to no step object that existed, and leaves the pipeline as it
    was. *)
Lemma fit_copy_raised X w X_init w1 err w' :
  _copy_X_if_use_init_data X w = (inr X_init, w1) →
  deepcopy (steps (self w)) w1 = (inl err, w') →
  self w' = self w ∧ events_since w w' = [] ∧
  next_addr w ≤ next_addr w' ∧
  (∀ a, a < next_addr w → heap w' a = heap w a).
Proof.
  intros Hcopy Hdc.
  pose proof (copy_X_frame X w) as Hf1. rewrite Hcopy in Hf1.
  destruct Hf1 as (Hh1 & Ha1 & Ht1 & Hs1). simpl in *.
  destruct (deepcopy_items_frame _ _ _ _ _ Hdc) as (Hs2 & Ht2 & _ & Ha2 & Hh2 & _).
  split_and!.
  - congruence.
  - apply events_since_app. by rewrite Ht2, Ht1, app_nil_r.
  - lia.
  - intros a Ha. rewrite Hh2 by lia. by rewrite Hh1.
Qed.

(** *** The events of one call *)

(** A call either raises before it reaches a step, or walks the steps of
    [self.steps_] according to its plan. *)
Lemma run_chain c w r w' :
  run c w = (r, w') →
  ((∃ err, r = inl err) ∧ events_since w w' = []) ∨
  (∃ l X_init w1 r0,
     steps_ (self w') = Some l ∧
     use_init_data (self w') = use_init_data (self w) ∧
     type_of (input_of c) ∈ [PandasDataFrame; Dictionary] ∧
     _copy_X_if_use_init_data (input_of c) w = (inr X_init, w1) ∧
     chain (use_init_data (self w)) X_init (input_of c)
       (plan (inner_method c) (final_method c) l) (events_since w w') r0 ∧
     (∀ v, r = inr v → ∃ v', r0 = inr v')).
Proof.
  destruct c as [X y sample_weight|X|X]; simpl; intros Hrun.
  - rewrite bind_run in Hrun.
    destruct (fit X y sample_weight w) as [rf wf] eqn:Hfit.
    apply fit_outcome in Hfit
      as [(_ & -> & ->)|[(_ & -> & ->)|[(_ & -> & ->)|[Hfail|(HX & Hfit)]]]];
      try (left; simplify_eq; split; [eauto|];
           by apply events_since_app; rewrite app_nil_r).
    { destruct Hfail as (_ & X_init & w1 & err & Hcopy & Hdc & ->).
      destruct (fit_copy_raised _ _ _ _ _ _ Hcopy Hdc) as (_ & Hnil & _).
      left. simplify_eq. eauto. }
    destruct Hfit as (X_init & w1 & l & w2 & Hcopy & Hdc & Hfit).
    pose proof (copy_X_frame X w) as Hf1. rewrite Hcopy in Hf1.
    simpl in Hf1.
    destruct Hf1 as (_ & _ & Ht1 & Hs1).
    destruct (deepcopy_items_frame _ _ _ _ _ Hdc) as (Hs2 & Ht2 & _).
    simpl in Hfit.
    destruct Hfit as [(-> & -> & ->)|(t & a & r0 & w4 & Hlast & Hw & Hfit)].
    { left. simplify_eq. split; [eauto|]. apply events_since_app. simpl.
      by rewrite Ht2, Ht1, app_nil_r. }
    destruct Hw as (Hs4 & _ & _ & _ & tr & Htr & Hc & _). simpl in *.
    assert (trace w4 = trace w ++ tr) as Htr4 by (by rewrite Htr, Ht2, Ht1).
    right. exists l, X_init, w1, r0.
    assert (steps_ (self w') = Some l ∧
            use_init_data (self w') = use_init_data (self w) ∧
            events_since w w' = tr ∧
            (∀ v, r = inr v → ∃ v', r0 = inr v')) as (? & ? & Hev & ?).
    { destruct r0 as [err|X5];
        [destruct Hfit as [-> ->]
        |destruct (step_rules (heap w4 a)); destruct Hfit as [-> ->]];
        unfold ret, set_rules, modify in Hrun; simpl in Hrun;
        simplify_eq; unfold events_since; simpl;
        rewrite ?Hs4, ?Htr4, ?drop_app_length; simpl; rewrite ?Hs2, ?Hs1;
        repeat split; eauto; intros; simplify_eq. }
    rewrite Hev. repeat split; eauto.
  - apply transform_outcome in Hrun as [(_ & -> & ->)|(HX & Hrun)].
    { left. split; [eauto|]. by apply events_since_app; rewrite app_nil_r. }
    destruct Hrun as (X_init & w1 & Hcopy & Hrun).
    pose proof (copy_X_frame X w) as Hf1. rewrite Hcopy in Hf1.
    simpl in Hf1.
    destruct Hf1 as (_ & _ & Ht1 & Hs1).
    destruct Hrun as [(_ & -> & ->)|(l & Hl & Hw)].
    { left. split; [eauto|]. apply events_since_app. by rewrite Ht1, app_nil_r. }
    destruct Hw as (Hs4 & _ & _ & _ & tr & Htr & Hc & _). rewrite Ht1 in Htr.
    right. exists l, X_init, w1, r. rewrite Hs4, Hs1.
    rewrite (events_since_app _ _ _ Htr). repeat split; eauto.
  - apply predict_outcome in Hrun as [(_ & -> & ->)|(HX & Hrun)].
    { left. split; [eauto|]. by apply events_since_app; rewrite app_nil_r. }
    destruct Hrun as (X_init & w1 & Hcopy & Hrun).
    pose proof (copy_X_frame X w) as Hf1. rewrite Hcopy in Hf1.
    simpl in Hf1.
    destruct Hf1 as (_ & _ & Ht1 & Hs1).
    destruct Hrun as [(_ & -> & ->)|[(_ & -> & ->)|(l & Hl & _ & Hw)]];
      try (left; split; [eauto|]; apply events_since_app;
           by rewrite Ht1, app_nil_r).
    destruct Hw as (Hs4 & _ & _ & _ & tr & Htr & Hc & _). rewrite Ht1 in Htr.
    right. exists l, X_init, w1, r. rewrite Hs4, Hs1.
    rewrite (events_since_app _ _ _ Htr). repeat split; eauto.
Qed.

(** *** What the calls leave alone *)


Lemma events_since_refl w : events_since w w = [].
Proof. by apply events_since_app; rewrite app_nil_r. Qed.

Lemma plan_methods inner final l x :
  last l = Some x →
  fst <$> plan inner final l = replicate (length l - 1) inner ++ [final].
Proof.
  intros Hl. unfold plan. rewrite Hl.
  apply removelast_last in Hl. revert Hl.
  generalize (removelast l). intros l0 <-.
  rewrite fmap_app, <- list_fmap_compose, length_app. simpl.
  replace (length l0 + 1 - 1) with (length l0) by lia. f_equal.
  induction l0; simpl; by f_equal.
Qed.

(** [transform] and [predict] rebind no attribute of the pipeline. *)
Lemma transform_self X w : self (transform X w).2 = self w.
Proof.
  destruct (transform X w) as [r w'] eqn:Hrun. simpl.
  apply transform_outcome in Hrun as [(_ & _ & ->)|(_ & Hrun)]; [done|].
  destruct Hrun as (X_init & w1 & Hcopy & Hrun).
  pose proof (copy_X_frame X w) as Hf. rewrite Hcopy in Hf.
  destruct Hf as (_ & _ & _ & Hs1). simpl in Hs1.
  destruct Hrun as [(_ & _ & ->)|(l & _ & Hs & _)]; congruence.
Qed.

Lemma predict_self X w : self (predict X w).2 = self w.
Proof.
  destruct (predict X w) as [r w'] eqn:Hrun. simpl.
  apply predict_outcome in Hrun as [(_ & _ & ->)|(_ & Hrun)]; [done|].
  destruct Hrun as (X_init & w1 & Hcopy & Hrun).
  pose proof (copy_X_frame X w) as Hf. rewrite Hcopy in Hf.
  destruct Hf as (_ & _ & _ & Hs1). simpl in Hs1.
  destruct Hrun as [(_ & _ & ->)|[(_ & _ & ->)|(l & _ & _ & Hs & _)]];
    congruence.
Qed.

(** [fit] works on objects it has allocated itself: what existed before
    the call is as it was, and every dispatch call is on a new object. *)
Lemma fit_frame X y sample_weight w r w' :
  fit X y sample_weight w = (r, w') →
  steps (self w') = steps (self w) ∧
  use_init_data (self w') = use_init_data (self w) ∧
  next_addr w ≤ next_addr w' ∧
  (∀ a, a < next_addr w → heap w' a = heap w a) ∧
  (∀ e, e ∈ events_since w w' → next_addr w ≤ ev_step e < next_addr w').
Proof.
  intros Hfit.
  apply fit_outcome in Hfit
    as [(_ & -> & ->)|[(_ & -> & ->)|[(_ & -> & ->)|[Hfail|(HX & Hfit)]]]];
    try (rewrite events_since_refl; split_and!; [done|done|lia|done|];
         intros e He; by apply elem_of_nil in He).
  { destruct Hfail as (_ & X_init & w1 & err & Hcopy & Hdc & ->).
    destruct (fit_copy_raised _ _ _ _ _ _ Hcopy Hdc) as (-> & -> & ? & ?).
    split_and!; [done|done|done|done|].
    intros e He; by apply elem_of_nil in He. }
  destruct Hfit as (X_init & w1 & l & w2 & Hcopy & Hdc & Hfit).
  pose proof (copy_X_frame X w) as Hf1. rewrite Hcopy in Hf1.
  destruct Hf1 as (Hh1 & Ha1 & Ht1 & Hs1). simpl in *.
  destruct (deepcopy_items_frame _ _ _ _ _ Hdc)
    as (Hs2 & Ht2 & _ & Ha2 & Hh2 & _).
  destruct (deepcopy_items_made _ _ _ _ _ Hdc) as (_ & Hfresh).
  assert (∀ a, a ∈ l.*2 → next_addr w ≤ a < next_addr w2) as Hl.
  { intros a [[b Hb]|Ha]%Hfresh; [by rewrite lookup_empty in Hb|lia]. }
  destruct Hfit as [(-> & -> & ->)|(t & a & r0 & w4 & Hlast & Hw & Hfit)].
  { simpl. rewrite Hs2, Hs1. split_and!; [done|done|lia| |].
    - intros a Ha. rewrite Hh2 by lia. by rewrite Hh1.
    - unfold events_since. simpl. rewrite Ht2, Ht1, drop_all.
      intros e He. by apply elem_of_nil in He. }
  destruct Hw as (Hs4 & Ha4 & _ & Hh4 & tr & Htr & Hc & _). simpl in *.
  rewrite plan_addrs in Hh4.
  assert (steps (self w') = steps (self w) ∧
          use_init_data (self w') = use_init_data (self w) ∧
          next_addr w' = next_addr w2 ∧ heap w' = heap w4 ∧
          events_since w w' = tr) as (-> & -> & -> & -> & ->).
  { assert (trace w4 = trace w ++ tr) as Htr4 by (by rewrite Htr, Ht2, Ht1).
    destruct r0 as [err|X5];
      [destruct Hfit as [-> ->]
      |destruct (step_rules (heap w4 a)); destruct Hfit as [-> ->]];
      unfold events_since; simpl;
      rewrite ?Hs4, ?Htr4, ?drop_app_length; simpl; rewrite ?Hs2, ?Hs1;
      repeat split; eauto. }
  split_and!; [done|done|lia| |].
  - intros b Hb. rewrite Hh4, Hh2, Hh1; try done; try lia.
    intros Hin%Hl. lia.
  - intros e [i Hi]%list_elem_of_lookup.
    destruct (chain_lookup _ _ _ _ _ _ _ _ Hc Hi)
      as (m & t' & a' & Hp & _ & Hstep).
    apply plan_lookup in Hp as [Hp _]. rewrite Hstep.
    assert (a' ∈ l.*2) as Hin; [|apply Hl in Hin; lia].
    apply list_elem_of_lookup. exists i. by rewrite list_lookup_fmap, Hp.
Qed.

(** *** The store a walk starts in *)


(** [fit] can copy steps that can be copied. *)
Lemma deepcopy_copyable w w1 :
  copyable w → heap w1 = heap w →
  ∃ l w2, deepcopy (steps (self w)) w1 = (inr l, w2).
Proof.
  intros Hok Hh. apply deepcopy_items_copyable.
  intros a [i Hi]%list_elem_of_lookup. rewrite list_lookup_fmap in Hi.
  destruct (steps (self w) !! i) as [[t b]|] eqn:Hb; simplify_eq/=.
  rewrite Hh. apply (Hok t). by eapply list_elem_of_lookup_2.
Qed.

(** A call that reaches a step has copied [X] when it had to and, for
    [fit], the steps; from the store [w0] these left, its events account
    for what happened to the data and to the step objects.  A call that
    reaches none has raised; when its arguments are accepted and the steps
    are there, that is because there is no step at all. *)
Lemma run_store c w r w' :
  run c w = (r, w') →
  ((∃ err, r = inl err) ∧ events_since w w' = [] ∧
   (accepted c → ready c w → steps_ (self w') = Some [])) ∨
  (∃ l X_init w1 w0 r0,
     steps_ (self w') = Some l ∧
     type_of (input_of c) ∈ [PandasDataFrame; Dictionary] ∧
     _copy_X_if_use_init_data (input_of c) w = (inr X_init, w1) ∧
     chain (use_init_data (self w)) X_init (input_of c)
       (plan (inner_method c) (final_method c) l) (events_since w w') r0 ∧
     tracked w0 (events_since w w') w' ∧
     data w0 = data w1 ∧
     match c with
     | CallFit _ _ _ =>
         ∃ w2, deepcopy (steps (self w)) w1 = (inr l, w2) ∧ heap w0 = heap w2
     | _ => heap w0 = heap w ∧ steps_ (self w) = Some l
     end).
Proof.
  destruct c as [X y sample_weight|X|X]; simpl; intros Hrun.
  - rewrite bind_run in Hrun.
    destruct (fit X y sample_weight w) as [rf wf] eqn:Hfit.
    apply fit_outcome in Hfit
      as [(Hbad & -> & ->)|[(Hbad & -> & ->)|[(Hbad & -> & ->)
          |[Hfail|(HX & Hfit)]]]];
      try (left; simplify_eq; split_and!;
           [eauto|apply events_since_refl|by intros (? & ? & ?)]).
    { destruct Hfail as (_ & X_init & w1 & err & Hcopy & Hdc & ->).
      destruct (fit_copy_raised _ _ _ _ _ _ Hcopy Hdc) as (_ & Hnil & _).
      left. simplify_eq. split_and!; [eauto|done|].
      intros _ Hready. exfalso.
      pose proof (copy_X_frame X w) as Hf1. rewrite Hcopy in Hf1.
      destruct Hf1 as (Hh1 & _). simpl in Hh1.
      destruct (deepcopy_copyable w w1 Hready Hh1) as (l' & w2' & Hok).
      congruence. }
    destruct Hfit as (X_init & w1 & l & w2 & Hcopy & Hdc & Hfit).
    pose proof (copy_X_frame X w) as Hf1. rewrite Hcopy in Hf1.
    simpl in Hf1.
    destruct Hf1 as (_ & _ & Ht1 & Hs1).
    destruct (deepcopy_items_frame _ _ _ _ _ Hdc)
      as (Hs2 & Ht2 & _ & _ & _ & Hd2).
    simpl in Hfit.
    destruct Hfit as [(-> & -> & ->)|(t & a & r0 & w4 & Hlast & Hw & Hfit)].
    { left. simplify_eq. split_and!; [eauto| |done].
      apply events_since_app. simpl. by rewrite Ht2, Ht1, app_nil_r. }
    destruct Hw as (Hs4 & _ & _ & _ & tr & Htr & Hc & Hk). simpl in *.
    assert (trace w4 = trace w ++ tr) as Htr4 by (by rewrite Htr, Ht2, Ht1).
    right. exists l, X_init, w1, (set_steps_ l w2).2, r0.
    assert (steps_ (self w') = Some l ∧ events_since w w' = tr ∧
            data w' = data w4 ∧ heap w' = heap w4) as (? & Hev & ? & ?).
    { destruct r0 as [err|X5];
        [destruct Hfit as [-> ->]
        |destruct (step_rules (heap w4 a)); destruct Hfit as [-> ->]];
        unfold ret, set_rules, modify in Hrun; simpl in Hrun;
        simplify_eq; unfold events_since; simpl;
        rewrite ?Hs4, ?Htr4, ?drop_app_length; simpl; done. }
    rewrite Hev. split_and!; try done.
    + refine (tracked_ext _ _ _ _ _ _ _ _ _ Hk); done.
    + by exists w2.
  - apply transform_outcome in Hrun as [(Hbad & -> & ->)|(HX & Hrun)].
    { left. split_and!; [eauto|apply events_since_refl|by intros ?]. }
    destruct Hrun as (X_init & w1 & Hcopy & Hrun).
    pose proof (copy_X_frame X w) as Hf1. rewrite Hcopy in Hf1.
    simpl in Hf1.
    destruct Hf1 as (Hh1 & _ & Ht1 & Hs1).
    destruct Hrun as [(Hnone & -> & ->)|(l & Hl & Hw)].
    { left. split_and!; [eauto| |].
      - apply events_since_app. by rewrite Ht1, app_nil_r.
      - intros _ [l Hl]. congruence. }
    destruct Hw as (Hs4 & _ & _ & _ & tr & Htr & Hc & Hk). rewrite Ht1 in Htr.
    right. exists l, X_init, w1, w1, r. rewrite Hs4, Hs1.
    rewrite (events_since_app _ _ _ Htr). by split_and!.
  - apply predict_outcome in Hrun as [(Hbad & -> & ->)|(HX & Hrun)].
    { left. split_and!; [eauto|apply events_since_refl|by intros ?]. }
    destruct Hrun as (X_init & w1 & Hcopy & Hrun).
    pose proof (copy_X_frame X w) as Hf1. rewrite Hcopy in Hf1.
    simpl in Hf1.
    destruct Hf1 as (Hh1 & _ & Ht1 & Hs1).
    destruct Hrun as [(Hnone & -> & ->)|[(Hl & -> & ->)|(l & Hl & _ & Hw)]].
    { left. split_and!; [eauto| |].
      - apply events_since_app. by rewrite Ht1, app_nil_r.
      - intros _ [l Hl]. congruence. }
    { left. split_and!; [eauto| |].
      - apply events_since_app. by rewrite Ht1, app_nil_r.
      - intros _ _. by rewrite Hs1. }
    destruct Hw as (Hs4 & _ & _ & _ & tr & Htr & Hc & Hk). rewrite Ht1 in Htr.
    right. exists l, X_init, w1, w1, r. rewrite Hs4, Hs1.
    rewrite (events_since_app _ _ _ Htr). by split_and!.
Qed.

(** A call whose arguments are accepted and whose steps are there runs
    step after step until one raises. *)
Lemma run_progress c w l :
  accepted c → ready c w →
  steps_ (self (run c w).2) = Some l →
  length (events_since w (run c w).2) = length l ∨
  ∃ e err, last (events_since w (run c w).2) = Some e ∧ ev_out e = inl err.
Proof.
  intros Hacc Hready Hl.
  destruct (run c w) as [r w'] eqn:Hrun. simpl in *.
  apply run_store in Hrun as [(_ & Hnil & Hempty)|Hrun].
  - rewrite (Hempty Hacc Hready) in Hl. simplify_eq. left. by rewrite Hnil.
  - destruct Hrun as (l' & X_init & w1 & w0 & r0 & Hl' & _ & _ & Hc & _).
    rewrite Hl in Hl'. simplify_eq.
    destruct (chain_progress _ _ _ _ _ _ Hc) as [Hlen|(e & err & ? & ? & _)];
      [left|right; eauto].
    rewrite Hlen. rewrite <- (plan_steps (inner_method c) (final_method c) l')
      at 2. by rewrite length_fmap.
Qed.

(** The step at position [i] is called when no step before it raised. *)
Lemma run_reaches c w l i x :
  accepted c → ready c w →
  steps_ (self (run c w).2) = Some l →
  l !! i = Some x →
  (∀ j e0, j < i → events_since w (run c w).2 !! j = Some e0 →
           ∃ v, ev_out e0 = inr v) →
  is_Some (events_since w (run c w).2 !! i).
Proof.
  intros Hacc Hready Hl Hi Hprev.
  apply lookup_lt_is_Some.
  destruct (run_progress c w l Hacc Hready Hl) as [->|(e & err & Hlast & Herr)];
    [by eapply lookup_lt_Some|].
  destruct (decide (i < length (events_since w (run c w).2))) as [|Hge];
    [done|exfalso].
  rewrite last_lookup in Hlast.
  assert (Init.Nat.pred (length (events_since w (run c w).2)) < i) as Hlt.
  { apply lookup_lt_Some in Hlast. lia. }
  destruct (Hprev _ _ Hlt Hlast) as [v Hv]. congruence.
Qed.


End StoreFacts.

(** ** [ClassAccessor.get] *)

Section AccessorProps.
Context {V : Type}.
Import ClassAccessor.

(** C3: [get] returns exactly [pipeline_params[class_tag][class_attribute]]
    when the tag is a key and the attribute is in its namespace; when the
    tag is not a key it raises the [ValueError] whose message names the
    tag, and returns no value at all; when the tag is a key and the
    attribute is missing, the [KeyError] of the namespace lookup comes out
    as it is. *)
Theorem get_resolves_or_raises
    (self : ClassAccessor.t) (pipeline_params : gmap string (gmap string V)) :
  (∀ namespace v,
      pipeline_params !! class_tag self = Some namespace →
      namespace !! class_attribute self = Some v →
      get self pipeline_params = inr v) ∧
  (pipeline_params !! class_tag self = None →
      get self pipeline_params
      = inl (ValueError
               ("There are no steps in `pipeline` corresponding to `class_tag`='"
                +:+ class_tag self +:+ "'")) ∧
      ∀ v, get self pipeline_params ≠ inr v) ∧
  (∀ namespace,
      pipeline_params !! class_tag self = Some namespace →
      namespace !! class_attribute self = None →
      get self pipeline_params = inl (KeyError (class_attribute self))).
Proof.
  unfold get, missing_step_msg. split_and!.
  - by intros namespace v -> ->.
  - by intros ->.
  - by intros namespace -> ->.
Qed.

End AccessorProps.

(** ** [LinearPipeline] *)

Section PipelineProps.
Context {FR : Frames} {SC : StepContract}.
Implicit Types (X y sample_weight : pyval) (w : world).

(** C6: [fit_transform] is [fit] followed by [transform] of the same [X],
    and [fit_predict] is [fit] followed by [predict] of the same [X]:
    same result, same store, and no second call when [fit] raises. *)
Theorem fit_transform_fit_predict_compose X y sample_weight w :
  fit_transform X y sample_weight w = fit_then_transform X y sample_weight w ∧
  fit_predict X y sample_weight w = fit_then_predict X y sample_weight w.
Proof.
  unfold fit_transform, fit_predict, fit_then_transform, fit_then_predict.
  rewrite !bind_run. by destruct (fit X y sample_weight w) as [[err|[]] w1].
Qed.

(** C8: a [use_init_data] that is neither a list nor [None] makes the
    constructor raise a [TypeError]; and [fit] given an [X] that is neither
    a DataFrame nor a dictionary, a [y] that is neither a Series nor a
    dictionary, or a [sample_weight] that is given and is neither, raises
    a [TypeError] and leaves the store as it found it: no step was called
    and [steps_] was not rebound. *)
Theorem wrong_container_kinds_rejected :
  (∀ steps use_init_data,
      (type_of use_init_data ∉ [ClassList; ClassNoneType]) →
      __init__ steps use_init_data = inl (TypeError "use_init_data")) ∧
  (∀ X y sample_weight w,
      (type_of X ∉ [PandasDataFrame; Dictionary]) ∨
      (type_of y ∉ [PandasSeries; Dictionary]) ∨
      (sample_weight ≠ PyNone ∧
       (type_of sample_weight ∉ [PandasSeries; Dictionary])) →
      ∃ x_name,
        x_name ∈ ["X"; "y"; "sample_weight"] ∧
        fit X y sample_weight w = (inl (TypeError x_name), w)).
Proof.
  split.
  - intros steps use_init_data Hbad.
    unfold __init__, check_allowed_types. by rewrite decide_False.
  - intros X y sample_weight w Hbad. unfold fit.
    rewrite bind_run, check_run.
    case_decide as HX; [|exists "X"; split; [by repeat constructor|done]].
    rewrite bind_run, check_run.
    case_decide as Hy; [|exists "y"; split; [by repeat constructor|done]].
    rewrite bind_run, check_weight_run.
    case_decide as Hsw;
      [|exists "sample_weight"; split; [by repeat constructor|done]].
    exfalso. destruct Hbad as [?|[?|[Hnone Hsw']]]; [done|done|].
    apply elem_of_cons in Hsw as [Hsw|Hsw]; [|done].
    by destruct sample_weight.
Qed.

(** C10: [transform] and [predict] rebind no attribute of the pipeline.
    After a [fit] that returned, [steps_] and [rules] are bound, and
    whatever sequence of [transform] and [predict] calls follows, the
    pipeline object holds the same [steps], [use_init_data], [steps_] and
    [rules] as right after that [fit]. *)
Theorem queries_rebind_nothing X y sample_weight w w' (qs : list query) :
  fit X y sample_weight w = (inr tt, w') →
  is_Some (steps_ (self w')) ∧ is_Some (rules (self w')) ∧
  self (run_queries qs w') = self w'.
Proof.
  intros Hfit. split_and!.
  - apply fit_outcome in Hfit
      as [(_ & ? & _)|[(_ & ? & _)|[(_ & ? & _)
          |[(_ & ? & ? & ? & _ & _ & ?)|(_ & Hfit)]]]]; try done.
    destruct Hfit as (X_init & w1 & l & w2 & _ & _ & Hfit). simpl in Hfit.
    destruct Hfit as [(_ & ? & _)|(t & a & r0 & w4 & _ & Hw & Hfit)]; [done|].
    destruct Hw as (Hs4 & _).
    destruct r0 as [err|X5]; [by destruct Hfit|].
    destruct (step_rules (heap w4 a)); destruct Hfit as [? ->]; [|done].
    simpl. by rewrite Hs4.
  - apply fit_outcome in Hfit
      as [(_ & ? & _)|[(_ & ? & _)|[(_ & ? & _)
          |[(_ & ? & ? & ? & _ & _ & ?)|(_ & Hfit)]]]]; try done.
    destruct Hfit as (X_init & w1 & l & w2 & _ & _ & Hfit). simpl in Hfit.
    destruct Hfit as [(_ & ? & _)|(t & a & r0 & w4 & _ & Hw & Hfit)]; [done|].
    destruct r0 as [err|X5]; [by destruct Hfit|].
    destruct (step_rules (heap w4 a)); destruct Hfit as [? ->]; done.
  - clear Hfit. revert w'. unfold run_queries.
    induction qs as [|q qs IH]; intros w'; simpl; [done|].
    rewrite IH. destruct q; simpl; [apply transform_self|apply predict_self].
Qed.

(** C4, as the code has it: [transform] and [predict] make no fit check.
    An [X] of a wrong kind makes them raise the [TypeError] of its check.
    Otherwise, on a pipeline whose [steps_] was never bound they raise
    the error of using the missing [steps_], call no step and rebind
    nothing.  Once [steps_] is bound they walk it, and what they raise is
    what a step raised (or, for [predict] and no step at all, the
    [IndexError] of [steps_[-1]]); so they return when every step does.
    [steps_] is bound by any [fit] that reached a step, whether that [fit]
    returned or raised afterwards. *)
Theorem unfitted_transform_predict_raise X w :
  ((type_of X ∉ [PandasDataFrame; Dictionary]) →
   transform X w = (inl (TypeError "X"), w) ∧
   predict X w = (inl (TypeError "X"), w)) ∧
  (type_of X ∈ [PandasDataFrame; Dictionary] → steps_ (self w) = None →
   (transform X w).1 = inl (MissingStateError "steps_") ∧
   (predict X w).1 = inl (MissingStateError "steps_") ∧
   trace (transform X w).2 = trace w ∧ trace (predict X w).2 = trace w ∧
   self (transform X w).2 = self w ∧ self (predict X w).2 = self w) ∧
  (∀ l, type_of X ∈ [PandasDataFrame; Dictionary] →
        steps_ (self w) = Some l →
   (∀ err, (transform X w).1 = inl err →
           ∃ e, last (events_since w (transform X w).2) = Some e ∧
                ev_out e = inl err) ∧
   (∀ err, (predict X w).1 = inl err →
           (l = [] ∧ err = IndexError) ∨
           ∃ e, last (events_since w (predict X w).2) = Some e ∧
                ev_out e = inl err)) ∧
  (∀ X1 y1 sample_weight1 w0 r,
      fit X1 y1 sample_weight1 w0 = (r, w) → events_since w0 w ≠ [] →
      is_Some (steps_ (self w))).
Proof.
  split_and!.
  - intros Hbad. unfold transform, predict.
    rewrite !bind_run, !check_run. by rewrite !decide_False.
  - intros HX Hnone. rewrite transform_self, predict_self.
    destruct (transform X w) as [rt wt] eqn:Ht.
    destruct (predict X w) as [rp wp] eqn:Hp. simpl.
    apply transform_outcome in Ht as [(? & _)|(_ & Ht)]; [done|].
    apply predict_outcome in Hp as [(? & _)|(_ & Hp)]; [done|].
    destruct Ht as (Xt & wt1 & Hct & Ht). destruct Hp as (Xp & wp1 & Hcp & Hp).
    rewrite Hct in Hcp. simplify_eq.
    pose proof (copy_X_frame X w) as Hf. rewrite Hct in Hf.
    destruct Hf as (_ & _ & Hf & _). simpl in Hf.
    destruct Ht as [(_ & -> & ->)|(? & ? & _)]; [|congruence].
    destruct Hp as [(_ & -> & ->)|[(? & _)|(? & ? & _)]]; [|congruence..].
    by split_and!.
  - intros l HX Hl. split.
    + intros err Herr.
      destruct (transform X w) as [rt wt] eqn:Ht. simpl in *. subst rt.
      apply transform_outcome in Ht as [(? & _)|(_ & Ht)]; [done|].
      destruct Ht as (X_init & w1 & Hcopy & Ht).
      pose proof (copy_X_frame X w) as Hf. rewrite Hcopy in Hf.
      destruct Hf as (_ & _ & Ht1 & _). simpl in Ht1.
      destruct Ht as [(? & _)|(l' & _ & Hw)]; [congruence|].
      destruct Hw as (_ & _ & _ & _ & tr & Htr & Hc & _). rewrite Ht1 in Htr.
      rewrite (events_since_app _ _ _ Htr). by eapply chain_failed.
    + intros err Herr.
      destruct (predict X w) as [rp wp] eqn:Hp. simpl in *. subst rp.
      apply predict_outcome in Hp as [(? & _)|(_ & Hp)]; [done|].
      destruct Hp as (X_init & w1 & Hcopy & Hp).
      pose proof (copy_X_frame X w) as Hf. rewrite Hcopy in Hf.
      destruct Hf as (_ & _ & Ht1 & _). simpl in Ht1.
      destruct Hp as [(? & _)|[(? & ? & _)|(l' & _ & _ & Hw)]];
        [congruence|left; split; congruence|right].
      destruct Hw as (_ & _ & _ & _ & tr & Htr & Hc & _). rewrite Ht1 in Htr.
      rewrite (events_since_app _ _ _ Htr). by eapply chain_failed.
  - intros X1 y1 sample_weight1 w0 r Hfit Hev.
    assert (run (CallFit X1 y1 sample_weight1) w0
            = (match r with inl e => inl e | inr _ => inr PyNone end, w))
      as Hrun.
    { simpl. rewrite bind_run, Hfit. by destruct r. }
    apply run_chain in Hrun as [[_ Hnil]|Hrun]; [done|].
    destruct Hrun as (l & _ & _ & _ & -> & _). eauto.
Qed.

End PipelineProps.

Section WalkProps.
Context {FR : Frames} {SC : StepContract}.
Implicit Types (X y sample_weight : pyval) (w : world).



(** C9: the selection rule makes no exception for the first step.  If the
    tag of the first step is listed in [use_init_data], then the first
    step is called whenever the arguments are accepted and the steps are
    there, and what it is handed is the copy [X_init]: an object of the
    kind of [X], other than the [X] the caller passed (which existed
    before the call), that holds what [X] held when the call was made. *)
Theorem first_step_listed_is_given_the_copy (c : call) w tags t a l o :
  let w' := (run c w).2 in
  let evs := events_since w w' in
  use_init_data (self w) = Some tags →
  t ∈ tags →
  steps_ (self w') = Some ((t, a) :: l) →
  oid_of (input_of c) = Some o → o < next_oid w →
  (accepted c → ready c w → is_Some (evs !! 0)) ∧
  ∀ e, evs !! 0 = Some e →
    (_copy_X_if_use_init_data (input_of c) w).1 = inr (ev_X e) ∧
    ev_step e = a ∧
    ev_X e ≠ input_of c ∧
    type_of (ev_X e) = type_of (input_of c) ∧
    oid_of (ev_X e) = Some (next_oid w) ∧
    ev_found e = data w o.
Proof.
  intros w' evs Htags Hin Hl Ho Hlt. subst w' evs. split.
  { intros Hacc Hready.
    eapply (run_reaches c w _ 0); [done|done|exact Hl|done|]. intros; lia. }
  intros e He.
  destruct (run c w) as [r w'] eqn:Hrun. simpl in *.
  apply run_store in Hrun as [(_ & Hnil & _)|Hrun]; [by rewrite Hnil in He|].
  destruct Hrun
    as (l' & X_init & w1 & w0 & r0 & Hl' & HX & Hcopy & Hc & Hk & Hd & _).
  rewrite Hl in Hl'. simplify_eq.
  destruct tags as [|tag tags]; [by apply elem_of_nil in Hin|].
  destruct (copy_X_made _ _ _ _ Htags HX)
    as (X_init' & w1' & Hcopy' & Hty & Hoid & Hdata & _).
  rewrite Hcopy in Hcopy'. simplify_eq.
  destruct (chain_lookup _ _ _ _ _ _ _ _ Hc He) as (m & t' & a' & Hp & _ & Ha).
  pose proof Hp as [Hp' _]%plan_lookup. simplify_eq/=.
  assert (ev_X e = X_init') as HeX by (by eapply chain_listed).
  destruct Hk as (_ & Hfound & _).
  rewrite Hcopy, (Hfound 0 e He), HeX. simpl.
  split_and!; try done.
  - intros ->. rewrite Ho in Hoid. simplify_eq. lia.
  - unfold found. rewrite Hoid, Hd, Hdata, fn_lookup_insert.
    unfold found. by rewrite Ho.
Qed.

End WalkProps.

Section FitProps.
Context {FR : Frames} {SC : StepContract}.
Implicit Types (X y sample_weight : pyval) (w : world).

(** C5: a [fit] that returns has run each step of [steps_] once, in
    order: [fit_transform] on every step but the last, [fit] alone on the
    last.  The first step is given what [_return_X] selects from [X], and
    each later step what it selects from the output of the step before
    it.  Afterwards the [rules] of the pipeline is the [rules] of the last
    step. *)
Theorem fit_runs_fit_transform_then_fit X y sample_weight w w' :
  fit X y sample_weight w = (inr tt, w') →
  ∃ l t a X_init,
    let evs := events_since w w' in
    steps_ (self w') = Some l ∧ last l = Some (t, a) ∧
    (_copy_X_if_use_init_data X w).1 = inr X_init ∧
    ev_step <$> evs = l.*2 ∧
    ev_method <$> evs = replicate (length l - 1) FitTransform ++ [Fit] ∧
    (∀ e t0 a0, evs !! 0 = Some e → l !! 0 = Some (t0, a0) →
                _return_X t0 X X_init w = (inr (ev_X e), w)) ∧
    (∀ i e e' t' a',
        evs !! i = Some e → evs !! S i = Some e' → l !! S i = Some (t', a') →
        ∃ Xo, ev_out e = inr Xo ∧
              _return_X t' Xo X_init w = (inr (ev_X e'), w)) ∧
    is_Some (rules (self w')) ∧
    rules (self w') = step_rules (heap w' a).
Proof.
  intros Hfit.
  assert (run (CallFit X y sample_weight) w = (inr PyNone, w')) as Hrun.
  { simpl. by rewrite bind_run, Hfit. }
  apply run_chain in Hrun as [[[err ?] _]|Hrun]; [done|].
  destruct Hrun as (l & X_init & w1 & r0 & Hl & _ & HX & Hcopy & Hc & Hr).
  destruct (Hr _ eq_refl) as [v' ->]. simpl in Hc, Hcopy.
  apply fit_outcome in Hfit
    as [(_ & ? & _)|[(_ & ? & _)|[(_ & ? & _)
        |[(_ & ? & ? & ? & _ & _ & ?)|(_ & Hfit)]]]]; try done.
  destruct Hfit as (X_init' & w1' & l' & w2 & Hcopy' & _ & Hfit).
  simpl in Hfit.
  destruct Hfit as [(_ & ? & _)|(t & a & r0 & w4 & Hlast & Hw & Hfit)]; [done|].
  destruct Hw as (Hs4 & _).
  destruct r0 as [err|X5]; [by destruct Hfit|].
  destruct (step_rules (heap w4 a)) as [v|] eqn:Hrules;
    destruct Hfit as [? Hw']; [|done].
  assert (steps_ (self w') = Some l' ∧ heap w' = heap w4 ∧
          rules (self w') = Some v) as (Hl' & Hh' & Hr').
  { rewrite Hw'. simpl. by rewrite Hs4. }
  rewrite Hl in Hl'. simplify_eq.
  exists l', t, a, X_init. rewrite Hcopy, Hr', Hh', Hrules. simpl.
  split_and!; try done.
  - apply chain_complete in Hc as [_ ->]. apply plan_addrs.
  - apply chain_complete in Hc as [-> _]. by eapply plan_methods.
  - intros e t0 a0 He Ht0. rewrite return_X_run. do 2 f_equal.
    destruct (chain_lookup _ _ _ _ _ _ _ _ Hc He) as (m & t1 & a1 & Hp & _).
    pose proof Hp as [Hp' _]%plan_lookup. rewrite Ht0 in Hp'. simplify_eq.
    symmetry. by eapply chain_first.
  - intros i e e' t' a' He He' Ht'.
    destruct (chain_lookup _ _ _ _ _ _ _ _ Hc He') as (m & t1 & a1 & Hp & _).
    pose proof Hp as [Hp' _]%plan_lookup. rewrite Ht' in Hp'. simplify_eq.
    destruct (chain_next _ _ _ _ _ _ _ _ _ _ _ _ Hc He He' Hp)
      as (Xo & HXo & HX').
    exists Xo. split; [done|]. rewrite return_X_run. by rewrite HX'.
Qed.


End FitProps.

(** ** The properties on the small pipeline *)

Section Instances.
#[local] Existing Instance Toy.frames.
#[local] Existing Instance Toy.contract.
Import Toy.

(** A run whose result is known, with the store it leaves. *)
Lemma run_with_result {A} (m : M A) (w : world) (r : exn + A) :
  (m w).1 = r → m w = (r, (m w).2).
Proof. intros <-. apply surjective_pairing. Defined.

Lemma get_resolves_or_raises_witness :
  ClassAccessor.get (ClassAccessor.__init__ "gen" "n_rules") params = inr 3 ∧
  ClassAccessor.get (ClassAccessor.__init__ "opt" "n_rules") params
  = inl (ValueError
           "There are no steps in `pipeline` corresponding to `class_tag`='opt'") ∧
  ClassAccessor.get (ClassAccessor.__init__ "gen" "rules") params
  = inl (KeyError "rules").
Proof.
  split_and!.
  - apply (proj1 (get_resolves_or_raises
                    (ClassAccessor.__init__ "gen" "n_rules") params))
      with {[ "n_rules" := 3 ]}; reflexivity.
  - apply (proj1 (proj2 (get_resolves_or_raises
                           (ClassAccessor.__init__ "opt" "n_rules") params))).
    reflexivity.
  - apply (proj2 (proj2 (get_resolves_or_raises
                           (ClassAccessor.__init__ "gen" "rules") params)))
      with {[ "n_rules" := 3 ]}; reflexivity.
Defined.




(** [transform] before any [fit]: the error is that of the missing
    [steps_], not a fit check's.  And after a [fit] that raised at its
    last line, for want of [rules] on the last step: [transform] and
    [predict] return. *)
Lemma transform_predict_before_fit_counterexample :
  __init__ gen_opt PyNone = inr (self (unfitted None)) ∧
  (transform X0 (unfitted None)).1 ≠ inl NotFittedError ∧
  (predict X0 (unfitted None)).1 ≠ inl NotFittedError ∧
  let res := @fit frames (brittle false) X0 y0 PyNone
               (fresh false [("opt", 1)]) in
  res.1 = inl (AttributeError "rules") ∧
  rules (self res.2) = None ∧
  (@transform frames (brittle false) X0 res.2).1 = inr (widen X0) ∧
  (@predict frames (brittle false) X0 res.2).1 = inr prediction.
Proof.
  split_and!; [reflexivity|vm_compute; discriminate..|].
  intros res. split_and!; reflexivity.
Qed.

Lemma unfitted_transform_predict_raise_witness :
  (transform X0 (unfitted None)).1 = inl (MissingStateError "steps_") ∧
  trace (transform X0 (unfitted None)).2 = [] ∧
  transform (PyList ["a"]) (unfitted None)
  = (inl (TypeError "X"), unfitted None).
Proof.
  destruct (unfitted_transform_predict_raise X0 (unfitted None))
    as (_ & Hmiss & _).
  destruct Hmiss as (Ht & _ & Htr & _);
    [by apply (bool_decide_unpack _)|reflexivity|].
  destruct (unfitted_transform_predict_raise (PyList ["a"]) (unfitted None))
    as (Hbad & _).
  destruct Hbad as (Hbt & _); [by apply (bool_decide_unpack _)|].
  split_and!; [exact Ht|exact Htr|exact Hbt].
Defined.

Lemma fit_runs_fit_transform_then_fit_witness :
  let w := unfitted (Some ["opt"]) in
  ev_method <$> events_since w (fitted (Some ["opt"])) = [FitTransform; Fit] ∧
  rules (self (fitted (Some ["opt"]))) = Some 1.
Proof.
  intros w.
  destruct (fit_runs_fit_transform_then_fit X0 y0 PyNone w
              (fitted (Some ["opt"])))
    as (l & t & a & X_init & Hl & Hlast & _ & _ & Hm & _ & _ & _ & Hr).
  { by apply run_with_result. }
  assert (l = [("gen", 2); ("opt", 3)]) as ->
    by (vm_compute in Hl; congruence).
  simpl in Hlast. simplify_eq. split; [exact Hm|]. rewrite Hr. reflexivity.
Defined.




(** With [use_init_data=["gen"]] the first step is handed the copy, in
    [fit] and in a [predict] after it. *)
Lemma first_step_listed_is_given_the_copy_witness :
  let w := unfitted (Some ["gen"]) in
  let evs := events_since w (run (CallFit X0 y0 PyNone) w).2 in
  let w' := fitted (Some ["gen"]) in
  let evs' := events_since w' (run (CallPredict X0) w').2 in
  evs !! 0 = Some (gen_event X0_copy) ∧
  X0_copy ≠ X0 ∧
  ev_found (gen_event X0_copy) = data w 0 ∧
  ∃ e, evs' !! 0 = Some e ∧ ev_X e ≠ X0 ∧ ev_found e = data w' 0.
Proof.
  intros w evs w' evs'.
  assert (evs !! 0 = Some (gen_event X0_copy)) as H0 by reflexivity.
  destruct (first_step_listed_is_given_the_copy (CallFit X0 y0 PyNone) w
              ["gen"] "gen" 2 [("opt", 3)] 0)
    as (_ & Hgiven);
    [reflexivity|apply list_elem_of_here|reflexivity|reflexivity
    |simpl; lia|].
  destruct (Hgiven _ H0) as (_ & _ & Hne & _ & _ & Hfound).
  destruct (first_step_listed_is_given_the_copy (CallPredict X0) w'
              ["gen"] "gen" 2 [("opt", 3)] 0)
    as (Hreached & Hgiven');
    [reflexivity|apply list_elem_of_here|reflexivity|reflexivity
    |vm_compute; lia|].
  destruct Hreached as [e He].
  { simpl. by apply (bool_decide_unpack _). }
  { simpl. by eexists. }
  destruct (Hgiven' e He) as (_ & _ & Hne' & _ & _ & Hfound').
  split_and!; [done|done|done|]. by exists e.
Defined.

Lemma queries_rebind_nothing_witness :
  let w' := fitted None in
  self (run_queries [QTransform X0; QPredict X0; QTransform PyNone] w')
  = self w'.
Proof.
  intros w'.
  apply (queries_rebind_nothing X0 y0 PyNone (unfitted None) w').
  by apply run_with_result.
Defined.

Lemma wrong_container_kinds_rejected_witness :
  __init__ gen_opt (PyObject "tuple") = inl (TypeError "use_init_data") ∧
  ∃ x_name,
    x_name ∈ ["X"; "y"; "sample_weight"] ∧
    fit (PyList ["a"]) y0 PyNone (unfitted None)
    = (inl (TypeError x_name), unfitted None).
Proof.
  split.
  - apply (proj1 wrong_container_kinds_rejected).
    by apply (bool_decide_unpack _).
  - apply (proj2 wrong_container_kinds_rejected).
    left. by apply (bool_decide_unpack _).
Defined.

End Instances.


(** * Further properties of the two modules *)

(** ** More on walks *)

Section WalkOutcomes.
Context {FR : Frames} {SC : StepContract}.
Implicit Types (X : pyval) (tr : list event) (w : world).
Implicit Types (p : list (method * (string * addr))).

(** A run whose result is known, with the store it leaves. *)
Lemma result_with_store {A} (m : M A) w (r : exn + A) :
  (m w).1 = r → m w = (r, (m w).2).
Proof. intros <-. apply surjective_pairing. Defined.

(** A step that raises ends the walk, with its exception. *)
Lemma chain_raised tags X_init X p tr r i e err :
  chain tags X_init X p tr r →
  tr !! i = Some e → ev_out e = inl err →
  r = inl err ∧ length tr = S i.
Proof.
  intros Hc. revert i.
  induction Hc as [| |? ? ? ? ? ? ? ? ? ? ? ? Hout Hc IH];
    intros [|i] Hi Herr; simplify_eq/=; try congruence.
  - split; congruence.
  - destruct (IH i Hi Herr) as [-> ->]. done.
Qed.

(** A walk that returns, returns what its last step returned. *)
Lemma chain_returned tags X_init X p tr X' e :
  chain tags X_init X p tr (inr X') → last tr = Some e → ev_out e = inr X'.
Proof.
  intros Hc. remember (inr X') as r eqn:Hr.
  induction Hc as [| |? ? ? ? ? ? ? tr ? ? ? ? Hout Hc IH];
    intros Hl; simplify_eq/=.
  destruct tr as [|e' tr]; simpl in *.
  - inversion Hc; simplify_eq. done.
  - by apply IH.
Qed.


(** The events of a call, with what the call returns.  Beyond [run_chain]:
    the log only grows, the exception of a walk is the exception of the
    call, and [transform] and [predict] return what their walk returns. *)
Lemma run_summary c w r w' :
  run c w = (r, w') →
  trace w' = trace w ++ events_since w w' ∧
  (((∃ err, r = inl err) ∧ events_since w w' = []) ∨
   (∃ l X_init w1 r0,
      steps_ (self w') = Some l ∧
      _copy_X_if_use_init_data (input_of c) w = (inr X_init, w1) ∧
      chain (use_init_data (self w)) X_init (input_of c)
        (plan (inner_method c) (final_method c) l) (events_since w w') r0 ∧
      (∀ err, r0 = inl err → r = inl err) ∧
      (∀ v, r = inr v → ∃ v', r0 = inr v') ∧
      match c with CallFit _ _ _ => True | _ => r = r0 end ∧
      match c with CallTransform _ => True | _ => l ≠ [] end)).
Proof.
  assert (∀ w0 w1 tr, trace w1 = trace w0 ++ tr →
            trace w1 = trace w0 ++ events_since w0 w1) as Hext.
  { intros w0 w1 tr Htr. by rewrite (events_since_app _ _ _ Htr). }
  assert (∀ w0, trace w0 = trace w0 ++ events_since w0 w0) as Hrefl.
  { intros w0. by rewrite events_since_refl, app_nil_r. }
  destruct c as [X y sample_weight|X|X]; simpl; intros Hrun.
  - rewrite bind_run in Hrun.
    destruct (fit X y sample_weight w) as [rf wf] eqn:Hfit.
    apply fit_outcome in Hfit
      as [(_ & -> & ->)|[(_ & -> & ->)|[(_ & -> & ->)|[Hfail|(HX & Hfit)]]]];
      try (simplify_eq; split; [done|]; left; split; [eauto|];
           apply events_since_refl).
    { destruct Hfail as (_ & X_init & w1 & err & Hcopy & Hdc & ->).
      destruct (fit_copy_raised _ _ _ _ _ _ Hcopy Hdc) as (_ & Hnil & _).
      pose proof (copy_X_frame X w) as Hf1. rewrite Hcopy in Hf1.
      simpl in Hf1. destruct Hf1 as (_ & _ & Ht1 & _).
      destruct (deepcopy_items_frame _ _ _ _ _ Hdc) as (_ & Ht2 & _).
      simplify_eq. rewrite Hnil, app_nil_r. split; [congruence|].
      left. eauto. }
    destruct Hfit as (X_init & w1 & l & w2 & Hcopy & Hdc & Hfit).
    pose proof (copy_X_frame X w) as Hf1. rewrite Hcopy in Hf1.
    simpl in Hf1. destruct Hf1 as (_ & _ & Ht1 & Hs1).
    destruct (deepcopy_items_frame _ _ _ _ _ Hdc) as (Hs2 & Ht2 & _).
    simpl in Hfit.
    destruct Hfit as [(-> & -> & ->)|(t & a & r0 & w4 & Hlast & Hw & Hfit)].
    { simplify_eq. unfold events_since. simpl.
      rewrite Ht2, Ht1, drop_all, app_nil_r. split; [done|]. left. eauto. }
    destruct Hw as (Hs4 & _ & _ & _ & tr & Htr & Hc & _). simpl in *.
    assert (trace w4 = trace w ++ tr) as Htr4 by (by rewrite Htr, Ht2, Ht1).
    assert (steps_ (self w') = Some l ∧ trace w' = trace w4 ∧
            (∀ err, r0 = inl err → r = inl err) ∧
            (∀ v, r = inr v → ∃ v', r0 = inr v')) as (? & Htw & ? & ?).
    { destruct r0 as [err|X5];
        [destruct Hfit as [-> ->]
        |destruct (step_rules (heap w4 a)); destruct Hfit as [-> ->]];
        unfold ret, set_rules, modify in Hrun; simpl in Hrun;
        simplify_eq; simpl; rewrite ?Hs4; simpl;
        repeat split; eauto; intros; simplify_eq. }
    rewrite <- Htw in Htr4. rewrite (events_since_app _ _ _ Htr4).
    split; [done|]. right. exists l, X_init, w1, r0.
    split_and!; try done. by intros ->.
  - apply transform_outcome in Hrun as [(_ & -> & ->)|(HX & Hrun)].
    { split; [done|]. left. split; [eauto|]. apply events_since_refl. }
    destruct Hrun as (X_init & w1 & Hcopy & Hrun).
    pose proof (copy_X_frame X w) as Hf1. rewrite Hcopy in Hf1.
    simpl in Hf1. destruct Hf1 as (_ & _ & Ht1 & Hs1).
    destruct Hrun as [(_ & -> & ->)|(l & Hl & Hw)].
    { assert (events_since w w1 = []) as Hnil
        by (apply events_since_app; by rewrite Ht1, app_nil_r).
      rewrite Hnil, app_nil_r. split; [done|]. left. eauto. }
    destruct Hw as (Hs4 & _ & _ & _ & tr & Htr & Hc & _). rewrite Ht1 in Htr.
    rewrite (events_since_app _ _ _ Htr). split; [done|].
    right. exists l, X_init, w1, r. rewrite Hs4, Hs1.
    split_and!; eauto.
  - apply predict_outcome in Hrun as [(_ & -> & ->)|(HX & Hrun)].
    { split; [done|]. left. split; [eauto|]. apply events_since_refl. }
    destruct Hrun as (X_init & w1 & Hcopy & Hrun).
    pose proof (copy_X_frame X w) as Hf1. rewrite Hcopy in Hf1.
    simpl in Hf1. destruct Hf1 as (_ & _ & Ht1 & Hs1).
    assert (events_since w w1 = []) as Hnil
      by (apply events_since_app; by rewrite Ht1, app_nil_r).
    destruct Hrun as [(_ & -> & ->)|[(_ & -> & ->)|(l & Hl & Hne & Hw)]];
      try (rewrite Hnil, app_nil_r; split; [done|]; left; eauto).
    destruct Hw as (Hs4 & _ & _ & _ & tr & Htr & Hc & _). rewrite Ht1 in Htr.
    rewrite (events_since_app _ _ _ Htr). split; [done|].
    right. exists l, X_init, w1, r. rewrite Hs4, Hs1.
    split_and!; eauto.
Qed.

End WalkOutcomes.

(** ** Every call, step by step *)

Section CallProps.
Context {FR : Frames} {SC : StepContract}.
Implicit Types (X y sample_weight : pyval) (w : world).

(** X1: An exception raised inside a step is the exception of the call, as it
    is: the call it was raised in is the last one logged, so no later step
    is run.  This holds for [fit], [transform] and [predict]. *)
Theorem step_exception_aborts_call (c : call) w i e err :
  let res := run c w in
  let evs := events_since w res.2 in
  evs !! i = Some e → ev_out e = inl err →
  res.1 = inl err ∧ length evs = S i.
Proof.
  intros res evs He Herr. subst res evs.
  destruct (run c w) as [r w'] eqn:Hrun. simpl in *.
  apply run_summary in Hrun as [_ [[_ Hnil]|Hrun]]; [by rewrite Hnil in He|].
  destruct Hrun as (l & X_init & w1 & r0 & _ & _ & Hc & Hraise & _).
  destruct (chain_raised _ _ _ _ _ _ _ _ _ Hc He Herr) as [-> Hlen].
  split; [by apply Hraise|done].
Qed.


(** X3: In every call, also one that raises part way, the [i]-th dispatch call
    is on the [i]-th step of [steps_] and uses the capability the call has
    for that position: [fit_transform] resp. [transform] before the last
    step, [fit], [transform] resp. [predict] on the last.  So [transform]
    and [predict] never fit a step. *)
Theorem each_call_uses_its_capability (c : call) w l i e :
  let w' := (run c w).2 in
  steps_ (self w') = Some l →
  events_since w w' !! i = Some e →
  (∃ t, l !! i = Some (t, ev_step e)) ∧
  ev_method e = (if decide (S i = length l) then final_method c
                 else inner_method c) ∧
  match c with
  | CallFit _ _ _ => True
  | _ => ev_method e ≠ Fit ∧ ev_method e ≠ FitTransform
  end.
Proof.
  intros w' Hl He. subst w'.
  destruct (run c w) as [r w'] eqn:Hrun. simpl in *.
  apply run_summary in Hrun as [_ [[_ Hnil]|Hrun]]; [by rewrite Hnil in He|].
  destruct Hrun as (l' & X_init & w1 & r0 & Hl' & _ & Hc & _).
  rewrite Hl in Hl'. simplify_eq.
  destruct (chain_lookup _ _ _ _ _ _ _ _ Hc He) as (m & t' & a' & Hp & Hm & Ha).
  apply plan_lookup in Hp as [Hp ->]. subst a'.
  split_and!; [eauto|done|].
  rewrite Hm. destruct c; [done|..]; simpl; by case_decide.
Qed.

(** X4: What [transform] and [predict] return is what the last dispatch call
    returned, which for [predict] is a call of [predict]; a [transform]
    over no steps returns its input as it is. *)
Theorem queries_return_the_last_output X w v w' :
  (transform X w = (inr v, w') →
   match last (events_since w w') with
   | Some e => ev_out e = inr v
   | None => v = X ∧ steps_ (self w') = Some []
   end) ∧
  (predict X w = (inr v, w') →
   ∃ e, last (events_since w w') = Some e ∧
        ev_out e = inr v ∧ ev_method e = Predict).
Proof.
  split; intros Hrun.
  - apply (run_summary (CallTransform X)) in Hrun as [_ [[[err ?] _]|Hrun]];
      [done|].
    destruct Hrun as (l & X_init & w1 & r0 & Hl & _ & Hc & _ & _ & Hr & _).
    simpl in *. subst r0.
    destruct (last (events_since w w')) as [e|] eqn:Hlast.
    { by eapply chain_returned. }
    apply last_None in Hlast. rewrite Hlast in Hc.
    inversion Hc as [X' HX Hp| |]; subst.
    rewrite plan_same in Hp. split; [done|]. by destruct l.
  - apply (run_summary (CallPredict X)) in Hrun as [_ [[[err ?] _]|Hrun]];
      [done|].
    destruct Hrun as (l & X_init & w1 & r0 & Hl & _ & Hc & _ & _ & Hr & Hne).
    simpl in *. subst r0.
    destruct (last l) as [x|] eqn:Hx; [|by apply last_None in Hx].
    pose proof (chain_complete _ _ _ _ _ _ Hc) as [Hm _].
    rewrite (plan_methods _ _ _ _ Hx) in Hm.
    destruct (last (events_since w w')) as [e|] eqn:Hlast.
    + exists e. split_and!; [done|by eapply chain_returned|].
      assert (last (ev_method <$> events_since w w') = Some (ev_method e))
        as Hlm by (by rewrite fmap_last, Hlast).
      rewrite Hm, last_snoc in Hlm. by simplify_eq.
    + apply last_None in Hlast. rewrite Hlast in Hm. simpl in Hm.
      by destruct (replicate _ _).
Qed.

End CallProps.

(** ** Edge cases and what is left alone *)

Section EdgeProps.
Context {FR : Frames} {SC : StepContract}.
Implicit Types (X y sample_weight : pyval) (w : world).

(** X5: A pipeline configured with no steps cannot be fitted: [fit] raises
    [IndexError] at [self.steps_[-1]], having already bound [steps_] to the
    empty list and without binding [rules].  On the pipeline it leaves,
    [predict] raises [IndexError] as well, while [transform] returns its
    input as it is. *)
Theorem empty_pipeline X y sample_weight w :
  steps (self w) = [] →
  type_of X ∈ [PandasDataFrame; Dictionary] →
  type_of y ∈ [PandasSeries; Dictionary] →
  type_of sample_weight ∈ [ClassNoneType; PandasSeries; Dictionary] →
  ∃ w',
    fit X y sample_weight w = (inl IndexError, w') ∧
    steps_ (self w') = Some [] ∧ rules (self w') = rules (self w) ∧
    events_since w w' = [] ∧
    ∀ X', type_of X' ∈ [PandasDataFrame; Dictionary] →
          (transform X' w').1 = inr X' ∧ (predict X' w').1 = inl IndexError.
Proof.
  intros Hsteps HX Hy Hsw.
  destruct (fit X y sample_weight w) as [r w'] eqn:Hfit. exists w'.
  pose proof Hfit as Hout.
  apply fit_outcome in Hout
    as [(? & _)|[(? & _)|[(? & _)|[Hfail|(_ & Hout)]]]]; try done.
  { destruct Hfail as (_ & ? & ? & ? & _ & Hdc & _).
    by rewrite Hsteps in Hdc. }
  destruct Hout as (X_init & w1 & l & w2 & Hcopy & Hdc & Hout).
  pose proof (copy_X_frame X w) as Hf1. rewrite Hcopy in Hf1.
  simpl in Hf1. destruct Hf1 as (_ & _ & Ht1 & Hs1).
  rewrite Hsteps in Hdc. unfold deepcopy in Hdc. simpl in Hdc.
  unfold ret in Hdc. simplify_eq. simpl in Hout.
  destruct Hout as [(_ & -> & ->)|(t & a & r0 & w4 & ? & _)]; [|done].
  split_and!; try done.
  - simpl. by rewrite Hs1.
  - apply events_since_app. simpl. by rewrite Ht1, app_nil_r.
  - intros X' HX'. split.
    + destruct (transform X' _) as [rt wt] eqn:Ht. simpl.
      apply transform_outcome in Ht as [(? & _)|(_ & Ht)]; [done|].
      destruct Ht as (Xi & wi & _ & [(? & _)|(l & Hl & Hw)]); [done|].
      simpl in Hl. simplify_eq.
      destruct Hw as (_ & _ & _ & _ & tr & _ & Hc & _). by inversion Hc.
    + destruct (predict X' _) as [rp wp] eqn:Hp. simpl.
      apply predict_outcome in Hp as [(? & _)|(_ & Hp)]; [done|].
      destruct Hp as (Xi & wi & _ & [(? & _)|[(_ & -> & _)|(l & Hl & ? & _)]]);
        [done|done|].
      simpl in Hl. by simplify_eq.
Qed.

(** X6: A [fit] that raises never binds [rules]: the pipeline keeps the rules
    of the fit before, and its [steps] and [use_init_data].  If the
    exception came after a step was run, [steps_] already holds the new
    copies, so the pipeline is left with new steps and old rules. *)
Theorem failed_fit_keeps_rules X y sample_weight w err w' :
  fit X y sample_weight w = (inl err, w') →
  rules (self w') = rules (self w) ∧
  steps (self w') = steps (self w) ∧
  use_init_data (self w') = use_init_data (self w) ∧
  (events_since w w' ≠ [] →
   ∃ l, steps_ (self w') = Some l ∧ ∀ a, a ∈ l.*2 → next_addr w ≤ a).
Proof.
  intros Hfit.
  destruct (fit_frame _ _ _ _ _ _ Hfit) as (Hst & Hu & _).
  apply fit_outcome in Hfit
    as [(_ & _ & ->)|[(_ & _ & ->)|[(_ & _ & ->)|[Hfail|(_ & Hfit)]]]];
    try (split_and!; try done; by rewrite events_since_refl).
  { destruct Hfail as (_ & X_init & w1 & err' & Hcopy & Hdc & _).
    destruct (fit_copy_raised _ _ _ _ _ _ Hcopy Hdc) as (Hs & Hnil & _).
    split_and!; try done; by rewrite ?Hs. }
  destruct Hfit as (X_init & w1 & l & w2 & Hcopy & Hdc & Hfit).
  pose proof (copy_X_frame X w) as Hf1. rewrite Hcopy in Hf1.
  simpl in Hf1. destruct Hf1 as (_ & Ha1 & Ht1 & Hs1).
  destruct (deepcopy_items_frame _ _ _ _ _ Hdc) as (Hs2 & Ht2 & _).
  destruct (deepcopy_items_made _ _ _ _ _ Hdc) as (_ & Hfresh).
  simpl in Hfit.
  assert (∀ a, a ∈ l.*2 → next_addr w ≤ a) as Hl.
  { intros a [[b Hb]|Ha]%Hfresh; [by rewrite lookup_empty in Hb|lia]. }
  assert (rules (self w') = rules (self w) ∧ steps_ (self w') = Some l)
    as [Hr Hl'].
  { destruct Hfit as [(_ & _ & ->)|(t & a & r0 & w4 & _ & Hw & Hfit)].
    - simpl. by rewrite Hs2, Hs1.
    - destruct Hw as (Hs4 & _).
      destruct r0 as [err0|X5];
        [destruct Hfit as [_ ->]
        |destruct (step_rules (heap w4 a)); destruct Hfit as [? ->]];
        try done; rewrite Hs4; simpl; by rewrite Hs2, Hs1. }
  split_and!; eauto.
Qed.

(** X7: [transform] and [predict] allocate no step object and write to none
    but those of [steps_]: after any sequence of such calls every other
    object holds what it held.  On a pipeline without [steps_] they write to
    nothing. *)
Theorem queries_touch_fitted_steps_only (qs : list query) w a :
  (∀ l, steps_ (self w) = Some l → a ∉ l.*2) →
  heap (run_queries qs w) a = heap w a ∧
  next_addr (run_queries qs w) = next_addr w.
Proof.
  revert w. unfold run_queries.
  induction qs as [|q qs IH]; intros w Ha; simpl; [done|].
  assert (self (run_query q w) = self w ∧
          heap (run_query q w) a = heap w a ∧
          next_addr (run_query q w) = next_addr w) as (Hs & Hh & Hn).
  { destruct q as [X|X]; simpl.
    - split; [apply transform_self|].
      destruct (transform X w) as [r w'] eqn:Hrun. simpl.
      apply transform_outcome in Hrun as [(_ & _ & ->)|(_ & Hrun)]; [done|].
      destruct Hrun as (X_init & w1 & Hcopy & Hrun).
      pose proof (copy_X_frame X w) as Hf1. rewrite Hcopy in Hf1.
      simpl in Hf1. destruct Hf1 as (Hh1 & Ha1 & _ & _).
      destruct Hrun as [(_ & _ & ->)|(l & Hl & Hw)]; [by rewrite Hh1|].
      destruct Hw as (_ & Ha4 & _ & Hh4 & _).
      rewrite plan_addrs in Hh4. rewrite Hh4, Hh1, Ha4; eauto.
    - split; [apply predict_self|].
      destruct (predict X w) as [r w'] eqn:Hrun. simpl.
      apply predict_outcome in Hrun as [(_ & _ & ->)|(_ & Hrun)]; [done|].
      destruct Hrun as (X_init & w1 & Hcopy & Hrun).
      pose proof (copy_X_frame X w) as Hf1. rewrite Hcopy in Hf1.
      simpl in Hf1. destruct Hf1 as (Hh1 & Ha1 & _ & _).
      destruct Hrun as [(_ & _ & ->)|[(_ & _ & ->)|(l & Hl & _ & Hw)]];
        [by rewrite Hh1..|].
      destruct Hw as (_ & Ha4 & _ & Hh4 & _).
      rewrite plan_addrs in Hh4. rewrite Hh4, Hh1, Ha4; eauto. }
  destruct (IH (run_query q w)) as [-> ->]; [by rewrite Hs|done].
Qed.

End EdgeProps.

(** ** Resolving an accessor against changing snapshots *)

Section AccessorUpdates.
Context {V : Type}.
Import ClassAccessor.

(** X8: An accessor caches nothing: resolved against a snapshot in which its
    attribute was just set it returns the new value, whatever the snapshot
    held before; entries and removals under other tags do not change what
    it resolves to; and once its own tag is removed it raises the
    [ValueError] again. *)
Theorem get_follows_the_snapshot
    (self : ClassAccessor.t) (pipeline_params : gmap string (gmap string V)) :
  (∀ namespace v,
      get self (<[class_tag self := <[class_attribute self := v]> namespace]>
                  pipeline_params) = inr v) ∧
  (∀ tag namespace, tag ≠ class_tag self →
      get self (<[tag := namespace]> pipeline_params)
      = get self pipeline_params) ∧
  (∀ tag, tag ≠ class_tag self →
      get self (delete tag pipeline_params) = get self pipeline_params) ∧
  (∀ namespace attr v, attr ≠ class_attribute self →
      pipeline_params !! class_tag self = Some namespace →
      get self (<[class_tag self := <[attr := v]> namespace]> pipeline_params)
      = get self pipeline_params) ∧
  get self (delete (class_tag self) pipeline_params)
  = inl (ValueError (missing_step_msg (class_tag self))).
Proof.
  unfold get. split_and!.
  - intros namespace v. by rewrite !lookup_insert_eq.
  - intros tag namespace Hne. by rewrite lookup_insert_ne.
  - intros tag Hne. by rewrite lookup_delete_ne.
  - intros namespace attr v Hne ->.
    by rewrite lookup_insert_eq, lookup_insert_ne.
  - by rewrite lookup_delete_eq.
Qed.

End AccessorUpdates.

(** ** How the walks compose *)

Section Composition.
Context {FR : Frames} {SC : StepContract}.
Implicit Types (X y sample_weight : pyval) (w : world).
Implicit Types (l : list (string * addr)).

Lemma transform_loop_app l1 l2 X X_init w :
  transform_loop (l1 ++ l2) X X_init w
  = match transform_loop l1 X X_init w with
    | (inr X', w') => transform_loop l2 X' X_init w'
    | (inl err, w') => (inl err, w')
    end.
Proof.
  revert X w. induction l1 as [|[t a] l1 IH]; intros X w; simpl; [done|].
  rewrite !bind_run, return_X_run. rewrite !bind_run.
  destruct (_pipeline_transform _ _ _ w) as [[err|X'] w']; [done|]. apply IH.
Qed.

Lemma plan_same_methods (m : method) l :
  fst <$> ((λ s, (m, s)) <$> l) = replicate (length l) m.
Proof. induction l; simpl; by f_equal. Qed.

Lemma removelast_length l x :
  last l = Some x → length (removelast l) = length l - 1.
Proof.
  intros Hl%removelast_last. rewrite <- Hl at 2. rewrite length_app. simpl. lia.
Qed.

(** [transform] and [predict] past the type check, as walks. *)
Lemma transform_run X w l :
  type_of X ∈ [PandasDataFrame; Dictionary] →
  steps_ (self w) = Some l →
  ∃ X_init w1,
    _copy_X_if_use_init_data X w = (inr X_init, w1) ∧
    trace w1 = trace w ∧ self w1 = self w ∧
    transform X w = transform_loop l X X_init w1.
Proof.
  intros HX Hl.
  destruct (copy_X_checked X w HX) as (X_init & w1 & Hcopy & _ & _ & Ht & Hs).
  exists X_init, w1. split_and!; try done.
  unfold transform. rewrite bind_run, check_run, decide_True by done.
  by rewrite bind_run, Hcopy, bind_run, get_steps_run, Hs, Hl.
Qed.

Lemma predict_run X w l x :
  type_of X ∈ [PandasDataFrame; Dictionary] →
  steps_ (self w) = Some l → last l = Some x →
  ∃ X_init w1,
    _copy_X_if_use_init_data X w = (inr X_init, w1) ∧
    trace w1 = trace w ∧ self w1 = self w ∧
    predict X w
    = match transform_loop (removelast l) X X_init w1 with
      | (inr X1, w2) =>
          _pipeline_predict x.2
            (selected_X (use_init_data (self w)) x.1 X1 X_init) w2
      | (inl err, w2) => (inl err, w2)
      end.
Proof.
  intros HX Hl Hlast.
  destruct (copy_X_checked X w HX) as (X_init & w1 & Hcopy & _ & _ & Ht & Hs).
  exists X_init, w1. split_and!; try done.
  unfold predict. rewrite bind_run, check_run, decide_True by done.
  rewrite bind_run, Hcopy, bind_run, get_steps_run, Hs, Hl, bind_run.
  destruct (transform_loop (removelast l) X X_init w1) as [[err|X1] w2]
    eqn:Hloop; [done|].
  apply transform_loop_walked in Hloop as (Hs2 & _).
  rewrite bind_run, get_steps_run, Hs2, Hs, Hl.
  rewrite bind_run, last_item_run, Hlast.
  by rewrite bind_run, return_X_run, Hs2, Hs.
Qed.

(** X9: [predict] is [transform] on every step but the last: on the same
    pipeline and input the two make the same dispatch calls, with the same
    arguments and the same results, up to the last step. *)
Theorem predict_walks_like_transform X w l :
  steps_ (self w) = Some l →
  take (length l - 1) (events_since w (predict X w).2)
  = take (length l - 1) (events_since w (transform X w).2).
Proof.
  intros Hl.
  destruct (last l) as [x|] eqn:Hlast;
    [|apply last_None in Hlast as ->; by rewrite !take_0].
  destruct (decide (type_of X ∈ [PandasDataFrame; Dictionary])) as [HX|HX].
  2:{ unfold predict, transform.
      by rewrite !bind_run, !check_run, !decide_False by done. }
  destruct (transform_run X w l HX Hl) as (X_init & w1 & Hcopy & Ht1 & Hs1 & ->).
  destruct (predict_run X w l x HX Hl Hlast)
    as (X_init' & w1' & Hcopy' & _ & _ & ->).
  rewrite Hcopy in Hcopy'. simplify_eq.
  rewrite <- (removelast_last l x Hlast) at 4.
  rewrite transform_loop_app.
  destruct (transform_loop (removelast l) X X_init' w1') as [[err|X1] w2]
    eqn:Hloop; [done|].
  apply transform_loop_walked in Hloop
    as (Hs2 & _ & _ & _ & tr1 & Htr1 & Hc1 & _).
  apply chain_complete in Hc1 as [Hlen _].
  apply (f_equal length) in Hlen. rewrite !length_fmap in Hlen.
  rewrite (removelast_length l x Hlast) in Hlen.
  rewrite Ht1 in Htr1.
  assert (∀ w3 tr2, trace w3 = trace w2 ++ tr2 →
            take (length l - 1) (events_since w w3) = tr1) as Htake.
  { intros w3 tr2 Htr2. rewrite Htr1, <- app_assoc in Htr2.
    rewrite (events_since_app _ _ _ Htr2), <- Hlen. apply take_app_length. }
  destruct (transform_loop [x] X1 X_init' w2) as [r3 w3] eqn:Hlast3.
  apply transform_loop_walked in Hlast3 as (_ & _ & _ & _ & tr3 & Htr3 & _).
  simpl. rewrite (Htake _ _ Htr3).
  pose proof (dispatch_walked (use_init_data (self w)) X_init' X1 Predict
                None x.1 x.2 None
                (λ s d, step_predict s d
                          (selected_X (use_init_data (self w)) x.1 X1 X_init'))
                w2) as Hd.
  simpl in Hd. destruct Hd as (_ & _ & _ & _ & tr4 & Htr4 & _).
  unfold _pipeline_predict. by rewrite (Htake _ _ Htr4).
Qed.

(** X10: [fit_transform] and [fit_predict] walk the steps twice: a call that
    returns has made the calls of [fit] on every step of [steps_] and then,
    on the same step objects, those of [transform] resp. [predict]. *)
Theorem fit_transform_walks_twice X y sample_weight w v w' :
  (fit_transform X y sample_weight w = (inr v, w') →
   ∃ l, steps_ (self w') = Some l ∧
        ev_step <$> events_since w w' = l.*2 ++ l.*2 ∧
        ev_method <$> events_since w w'
        = (replicate (length l - 1) FitTransform ++ [Fit])
          ++ replicate (length l) Transform) ∧
  (fit_predict X y sample_weight w = (inr v, w') →
   ∃ l, steps_ (self w') = Some l ∧
        ev_step <$> events_since w w' = l.*2 ++ l.*2 ∧
        ev_method <$> events_since w w'
        = (replicate (length l - 1) FitTransform ++ [Fit])
          ++ (replicate (length l - 1) Transform ++ [Predict])).
Proof.
  assert (∀ (c : call) w1,
            fit X y sample_weight w = (inr tt, w1) →
            run c w1 = (inr v, w') →
            (∀ y' sw', c ≠ CallFit (input_of c) y' sw') →
            ∃ l x, steps_ (self w') = Some l ∧ last l = Some x ∧
              ev_step <$> events_since w w' = l.*2 ++ l.*2 ∧
              ev_method <$> events_since w w'
              = (fst <$> plan FitTransform Fit l)
                ++ (fst <$> plan (inner_method c) (final_method c) l))
    as Hboth.
  { intros c w1 Hfit Hrun Hnofit.
    assert (run (CallFit X y sample_weight) w = (inr PyNone, w1)) as Hrun1.
    { simpl. by rewrite bind_run, Hfit. }
    apply run_summary in Hrun1 as [Htr1 [[[err ?] _]|Hrun1]]; [done|].
    destruct Hrun1 as (l & X_init & w0 & r0 & Hl & _ & Hc & _ & Hr & _ & Hne).
    destruct (Hr _ eq_refl) as [v' ->]. simpl in Hc.
    assert (self w' = self w1) as Hs.
    { destruct c; [by edestruct Hnofit|..]; simpl in Hrun.
      - pose proof (transform_self X0 w1) as Hs. by rewrite Hrun in Hs.
      - pose proof (predict_self X0 w1) as Hs. by rewrite Hrun in Hs. }
    apply run_summary in Hrun as [Htr2 [[[err ?] _]|Hrun]]; [done|].
    destruct Hrun as (l' & X_init' & w0' & r0' & Hl' & _ & Hc' & _ & Hr' & _).
    destruct (Hr' _ eq_refl) as [v'' ->].
    rewrite Hs, Hl in Hl'. simplify_eq.
    destruct (last l') as [x|] eqn:Hlast; [|by apply last_None in Hlast].
    exists l', x. rewrite Hs. split_and!; [done|done| |].
    - rewrite Htr1, <- app_assoc in Htr2.
      rewrite (events_since_app _ _ _ Htr2), fmap_app.
      apply chain_complete in Hc as [_ ->].
      apply chain_complete in Hc' as [_ ->]. by rewrite !plan_addrs.
    - rewrite Htr1, <- app_assoc in Htr2.
      rewrite (events_since_app _ _ _ Htr2), fmap_app.
      apply chain_complete in Hc as [-> _].
      by apply chain_complete in Hc' as [-> _]. }
  split; intros Hrun.
  - unfold fit_transform in Hrun. rewrite bind_run in Hrun.
    destruct (fit X y sample_weight w) as [[err|[]] w1] eqn:Hfit; [done|].
    destruct (Hboth (CallTransform X) w1 eq_refl Hrun)
      as (l & x & Hl & Hlast & Hsteps & Hm); [done|].
    exists l. split_and!; [done..|].
    rewrite Hm, (plan_methods _ _ _ _ Hlast). simpl.
    by rewrite plan_same, plan_same_methods.
  - unfold fit_predict in Hrun. rewrite bind_run in Hrun.
    destruct (fit X y sample_weight w) as [[err|[]] w1] eqn:Hfit; [done|].
    destruct (Hboth (CallPredict X) w1 eq_refl Hrun)
      as (l & x & Hl & Hlast & Hsteps & Hm); [done|].
    exists l. split_and!; [done..|].
    by rewrite Hm, !(plan_methods _ _ _ _ Hlast).
Qed.

End Composition.

(** ** Pipelines in sequence, and the cost of [use_init_data] *)

Section Sequencing.
Context {FR : Frames} {SC : StepContract}.
Implicit Types (X y sample_weight : pyval) (w : world).
Implicit Types (l : list (string * addr)).

(** The loop reads no attribute of the pipeline but [use_init_data]. *)
Lemma transform_loop_rebind l X X_init w (f : LinearPipeline.t → LinearPipeline.t) :
  (∀ s, use_init_data (f s) = use_init_data s) →
  transform_loop l X X_init (modify f w).2
  = ((transform_loop l X X_init w).1,
     (modify f (transform_loop l X X_init w).2).2).
Proof.
  intros Hf. revert X w. induction l as [|[t a] l IH]; intros X w; simpl; [done|].
  rewrite !bind_run, !return_X_run. simpl. rewrite Hf, !bind_run.
  unfold _pipeline_transform, dispatch. simpl.
  destruct (step_transform t (heap w a) _ _) as [[s' ups] [err|X']]; simpl;
    [done|].
  match goal with
  | |- _ = ((transform_loop _ _ _ ?w0).1, _) => exact (IH X' w0)
  end.
Qed.

Lemma transform_with_steps X w l :
  use_init_data (self w) = None ∨ use_init_data (self w) = Some [] →
  type_of X ∈ [PandasDataFrame; Dictionary] →
  transform X (set_steps_ l w).2
  = ((transform_loop l X PyNone w).1,
     (set_steps_ l (transform_loop l X PyNone w).2).2).
Proof.
  intros Htags HX. unfold transform.
  rewrite bind_run, check_run, decide_True by done.
  rewrite bind_run, copy_X_skipped by done.
  rewrite bind_run, get_steps_run. simpl.
  exact (transform_loop_rebind l X PyNone w
           (λ s, {| steps := steps s; use_init_data := use_init_data s;
                    steps_ := Some l; rules := rules s |})
           (λ _, eq_refl)).
Qed.

(** X11: Without [use_init_data], transforming through a pipeline of the steps
    [l1 ++ l2] is transforming through [l1] and then through [l2]: the same
    result and the same store, up to [steps_].  If the first part raises,
    the whole raises the same exception.  (The second [transform] checks
    the kind of its input, which the middle of a pipeline does not.) *)
Theorem transform_composes X w l1 l2 r1 w1 :
  use_init_data (self w) = None ∨ use_init_data (self w) = Some [] →
  transform X (set_steps_ l1 w).2 = (r1, w1) →
  match r1 with
  | inl err =>
      transform X (set_steps_ (l1 ++ l2) w).2
      = (inl err, (set_steps_ (l1 ++ l2) w1).2)
  | inr X1 =>
      type_of X1 ∈ [PandasDataFrame; Dictionary] →
      transform X (set_steps_ (l1 ++ l2) w).2
      = ((transform X1 (set_steps_ l2 w1).2).1,
         (set_steps_ (l1 ++ l2) (transform X1 (set_steps_ l2 w1).2).2).2)
  end.
Proof.
  intros Htags Hrun.
  destruct (decide (type_of X ∈ [PandasDataFrame; Dictionary])) as [HX|HX].
  2:{ unfold transform in *.
      rewrite bind_run, check_run, decide_False in Hrun by done.
      rewrite bind_run, check_run, decide_False by done. by simplify_eq. }
  rewrite transform_with_steps in Hrun by done.
  rewrite transform_with_steps, transform_loop_app by done.
  destruct (transform_loop l1 X PyNone w) as [r0 w0] eqn:Hloop.
  simpl in Hrun. simplify_eq.
  destruct r1 as [err|X1]; [done|]. intros HX1.
  apply transform_loop_walked in Hloop as (Hs0 & _).
  rewrite transform_with_steps; [|simpl; by rewrite Hs0|done].
  pose proof (transform_loop_rebind l2 X1 PyNone w0
                (λ s, {| steps := steps s; use_init_data := use_init_data s;
                         steps_ := Some l1; rules := rules s |})
                (λ _, eq_refl)) as Hreb.
  simpl in Hreb. rewrite Hreb. done.
Qed.

Lemma copy_X_oid X w X_init w1 :
  _copy_X_if_use_init_data X w = (inr X_init, w1) →
  next_oid w1 = match use_init_data (self w) with
                | Some (_ :: _) =>
                    if decide (type_of X = ClassList) then next_oid w
                    else S (next_oid w)
                | _ => next_oid w
                end.
Proof.
  unfold _copy_X_if_use_init_data, bind, gets, ret, copy.
  destruct (use_init_data (self w)) as [[|tag tags]|]; intros Hc;
    [by simplify_eq| |by simplify_eq].
  destruct X; by simplify_eq/=.
Qed.

(** X12: Whether data is copied depends on [use_init_data] being populated, not
    on what it lists.  A call makes no copy when it is absent or empty.
    When it is populated, a call that reaches a step has made exactly one
    copy of [X], also when no step carries a listed tag; and no call makes
    more than one. *)
Theorem one_copy_per_call (c : call) w :
  let w' := (run c w).2 in
  (use_init_data (self w) = None ∨ use_init_data (self w) = Some [] →
   next_oid w' = next_oid w) ∧
  (∀ tag tags, use_init_data (self w) = Some (tag :: tags) →
               events_since w w' ≠ [] → next_oid w' = S (next_oid w)) ∧
  next_oid w ≤ next_oid w' ≤ S (next_oid w).
Proof.
  intros w'. subst w'.
  assert ((run c w).2 = w ∨
          ∃ X_init w1,
            type_of (input_of c) ∈ [PandasDataFrame; Dictionary] ∧
            _copy_X_if_use_init_data (input_of c) w = (inr X_init, w1) ∧
            next_oid (run c w).2 = next_oid w1) as Hoid.
  { destruct (run c w) as [r w'] eqn:Hrun. simpl.
    destruct c as [X y sample_weight|X|X]; simpl in *.
    - rewrite bind_run in Hrun.
      destruct (fit X y sample_weight w) as [rf wf] eqn:Hfit.
      assert (w' = wf) as ->
        by (destruct rf; unfold ret in Hrun; by simplify_eq).
      apply fit_outcome in Hfit
        as [(_ & _ & ->)|[(_ & _ & ->)|[(_ & _ & ->)
            |[(HX & Hfail)|(HX & Hfit)]]]]; auto.
      { destruct Hfail as (X_init & w1 & err & Hcopy & Hdc & _).
        destruct (deepcopy_items_frame _ _ _ _ _ Hdc) as (_ & _ & Ho2 & _).
        right. by exists X_init, w1. }
      destruct Hfit as (X_init & w1 & l & w2 & Hcopy & Hdc & Hfit).
      right. exists X_init, w1. split_and!; try done.
      destruct (deepcopy_items_frame _ _ _ _ _ Hdc) as (_ & _ & Ho2 & _).
      simpl in Hfit.
      destruct Hfit as [(_ & _ & ->)|(t & a & r0 & w4 & _ & Hw & Hfit)]; [done|].
      destruct Hw as (_ & _ & Ho4 & _). simpl in Ho4.
      destruct r0 as [err0|X5];
        [destruct Hfit as [_ ->]
        |destruct (step_rules (heap w4 a)); destruct Hfit as [_ ->]];
        simpl; congruence.
    - apply transform_outcome in Hrun as [(_ & _ & ->)|(HX & Hrun)]; auto.
      destruct Hrun as (X_init & w1 & Hcopy & Hrun).
      right. exists X_init, w1. split_and!; try done.
      destruct Hrun as [(_ & _ & ->)|(l & _ & _ & _ & ? & _)]; done.
    - apply predict_outcome in Hrun as [(_ & _ & ->)|(HX & Hrun)]; auto.
      destruct Hrun as (X_init & w1 & Hcopy & Hrun).
      right. exists X_init, w1. split_and!; try done.
      destruct Hrun
        as [(_ & _ & ->)|[(_ & _ & ->)|(l & _ & _ & _ & _ & ? & _)]]; done. }
  destruct Hoid as [->|(X_init & w1 & HX & Hcopy & ->)].
  { split_and!; try done; try lia.
    intros tag tags _ Hne. by rewrite events_since_refl in Hne. }
  rewrite (copy_X_oid _ _ _ _ Hcopy).
  assert (type_of (input_of c) ≠ ClassList) as Hnl.
  { intros Heq. rewrite Heq in HX. revert HX. by apply (bool_decide_unpack _). }
  split_and!.
  - by intros [-> | ->].
  - intros tag tags -> _. by rewrite decide_False.
  - destruct (use_init_data (self w)) as [[|? ?]|]; try lia.
    rewrite decide_False by done. lia.
  - destruct (use_init_data (self w)) as [[|? ?]|]; try lia.
    rewrite decide_False by done. lia.
Qed.

End Sequencing.

(** ** What [fit] tells the steps *)

Section FitArguments.
Context {FR : Frames} {SC : StepContract}.
Implicit Types (X y sample_weight : pyval) (w : world).
Implicit Types (l : list (string * addr)).

(** The calls of the loop of [fit]: each is told the tag of its step and
    is handed [y] and [sample_weight]. *)
Lemma fit_loop_arguments l X y sample_weight X_init w r w' :
  fit_loop l X y sample_weight X_init w = (r, w') →
  ∃ tr, trace w' = trace w ++ tr ∧
        Forall (λ e, ev_target e = Some (y, sample_weight) ∧
                     ∃ t, ev_tag e = Some t ∧ (t, ev_step e) ∈ l) tr.
Proof.
  revert X w. induction l as [|[t a] l IH]; intros X w Hrun; simpl in Hrun.
  { unfold ret in Hrun. simplify_eq. exists []. by rewrite app_nil_r. }
  rewrite bind_run, return_X_run, bind_run in Hrun.
  unfold _pipeline_fit_transform, dispatch in Hrun.
  destruct (step_fit_transform t (heap w a) _ _ y sample_weight)
    as [[s' ups] [err|X']].
  - simplify_eq. eexists [_]. split; [done|].
    repeat constructor; simpl. exists t. split; [done|]. apply list_elem_of_here.
  - apply IH in Hrun as (tr & Htr & Hall). simpl in Htr.
    eexists (_ :: tr). split; [by rewrite Htr, <- app_assoc|].
    constructor.
    + simpl. split; [done|]. exists t. split; [done|]. apply list_elem_of_here.
    + eapply Forall_impl; [exact Hall|].
      intros e (? & t' & ? & ?). split; [done|]. exists t'.
      split; [done|]. by apply list_elem_of_further.
Qed.

(** [fit] past the type checks, as the loop and the last step. *)
Lemma fit_run X y sample_weight w :
  type_of X ∈ [PandasDataFrame; Dictionary] →
  type_of y ∈ [PandasSeries; Dictionary] →
  type_of sample_weight ∈ [ClassNoneType; PandasSeries; Dictionary] →
  ∃ X_init w1 r w2,
    _copy_X_if_use_init_data X w = (inr X_init, w1) ∧
    deepcopy (steps (self w)) w1 = (r, w2) ∧
    trace w2 = trace w ∧
    fit X y sample_weight w
    = match r with
      | inl err => (inl err, w2)
      | inr l =>
          match last l with
          | None => (inl IndexError, (set_steps_ l w2).2)
          | Some x =>
              match fit_loop (removelast l) X y sample_weight X_init
                      (set_steps_ l w2).2 with
              | (inl err, w4) => (inl err, w4)
              | (inr X1, w4) =>
                  (_pipeline_fit x.1 x.2
                     (selected_X (use_init_data (self w)) x.1 X1 X_init)
                     y sample_weight;;
                   r <- get_rules x.2;; set_rules r) w4
              end
          end
      end.
Proof.
  intros HX Hy Hsw.
  destruct (copy_X_checked X w HX) as (X_init & w1 & Hcopy & _ & _ & Ht1 & Hs1).
  destruct (deepcopy (steps (self w)) w1) as [r w2] eqn:Hdc.
  destruct (deepcopy_items_frame _ _ _ _ _ Hdc) as (Hs2 & Ht2 & _).
  exists X_init, w1, r, w2. split_and!; [done|done|congruence|].
  unfold fit. rewrite bind_run, check_run, decide_True by done.
  rewrite bind_run, check_run, decide_True by done.
  rewrite bind_run, check_weight_run, decide_True by done.
  rewrite bind_run, Hcopy, bind_run, (bind_run (gets steps)).
  unfold gets at 1. rewrite Hs1. unfold deepcopy in Hdc. unfold deepcopy.
  rewrite Hdc. destruct r as [err|l]; [done|].
  rewrite bind_run. unfold set_steps_ at 1, modify at 1.
  rewrite bind_run, get_steps_run. simpl. rewrite bind_run.
  destruct (last l) as [x|] eqn:Hlast.
  2:{ apply last_None in Hlast as ->. simpl.
      rewrite bind_run, get_steps_run. simpl.
      by rewrite bind_run, last_item_run. }
  destruct (fit_loop (removelast l) X y sample_weight X_init _)
    as [[err|X1] w4] eqn:Hloop; [done|].
  apply fit_loop_walked in Hloop as (Hs4 & _). simpl in Hs4.
  rewrite bind_run, get_steps_run, Hs4. simpl.
  rewrite bind_run, last_item_run, Hlast.
  rewrite bind_run, return_X_run, Hs4. simpl. by rewrite Hs2, Hs1.
Qed.

(** The last step of [fit]: one call, and no attribute but [rules] is
    rebound. *)
Lemma fit_last_step t a X y sample_weight w r w' :
  (_pipeline_fit t a X y sample_weight;;
   r <- get_rules a;; set_rules r) w = (r, w') →
  ∃ e, trace w' = trace w ++ [e] ∧
       ev_target e = Some (y, sample_weight) ∧
       ev_tag e = Some t ∧ ev_step e = a ∧
       steps_ (self w') = steps_ (self w).
Proof.
  unfold _pipeline_fit. rewrite !bind_run. unfold dispatch.
  destruct (step_fit t (heap w a) _ X y sample_weight)
    as [[s' ups] [err|[]]];
    simpl; [intros; simplify_eq; by eexists|].
  rewrite bind_run. unfold get_rules, set_rules, modify. simpl.
  destruct (step_rules _); simpl; intros; simplify_eq; by eexists.
Qed.

(** X13: [fit] hands the [y] and the [sample_weight] it was given to every
    step, as they are, and tells each step a tag under which that step is
    listed in [steps_]. *)
Theorem fit_hands_targets_to_every_step X y sample_weight w e :
  let w' := (fit X y sample_weight w).2 in
  e ∈ events_since w w' →
  ev_target e = Some (y, sample_weight) ∧
  ∃ t l, steps_ (self w') = Some l ∧ ev_tag e = Some t ∧ (t, ev_step e) ∈ l.
Proof.
  intros w' He. subst w'.
  destruct (decide (type_of X ∈ [PandasDataFrame; Dictionary])) as [HX|HX].
  2:{ unfold fit in He. rewrite bind_run, check_run, decide_False in He by done.
      simpl in He. rewrite events_since_refl in He. by apply elem_of_nil in He. }
  destruct (decide (type_of y ∈ [PandasSeries; Dictionary])) as [Hy|Hy].
  2:{ unfold fit in He. rewrite bind_run, check_run, decide_True in He by done.
      rewrite bind_run, check_run, decide_False in He by done.
      simpl in He. rewrite events_since_refl in He. by apply elem_of_nil in He. }
  destruct (decide (type_of sample_weight
                    ∈ [ClassNoneType; PandasSeries; Dictionary])) as [Hsw|Hsw].
  2:{ unfold fit in He. rewrite bind_run, check_run, decide_True in He by done.
      rewrite bind_run, check_run, decide_True in He by done.
      rewrite bind_run, check_weight_run, decide_False in He by done.
      simpl in He. rewrite events_since_refl in He. by apply elem_of_nil in He. }
  destruct (fit_run X y sample_weight w HX Hy Hsw)
    as (X_init & w1 & [err|l] & w2 & _ & _ & Ht2 & Hfit).
  { rewrite Hfit in He. simpl in He. unfold events_since in He.
    rewrite Ht2, drop_all in He. by apply elem_of_nil in He. }
  rewrite Hfit in *. clear Hfit.
  destruct (last l) as [[t a]|] eqn:Hlast.
  2:{ simpl in He. unfold events_since in He. simpl in He.
      rewrite Ht2, drop_all in He. by apply elem_of_nil in He. }
  destruct (fit_loop (removelast l) X y sample_weight X_init _)
    as [r1 w4] eqn:Hloop.
  pose proof (fit_loop_walked _ _ _ _ _ _ _ _ Hloop) as (Hs4 & _).
  apply fit_loop_arguments in Hloop as (tr & Htr & Hall).
  simpl in Htr, Hs4. rewrite Ht2 in Htr.
  assert (∀ e, (∃ t0, ev_tag e = Some t0 ∧ (t0, ev_step e) ∈ removelast l) →
               ∃ t0, ev_tag e = Some t0 ∧ (t0, ev_step e) ∈ l) as Hsub.
  { intros e0 (t0 & ? & Hin). exists t0. split; [done|].
    rewrite <- (removelast_last l _ Hlast). apply elem_of_app. by left. }
  destruct r1 as [err|X1].
  - simpl in *. rewrite (events_since_app _ _ _ Htr) in He.
    rewrite Hs4. simpl.
    rewrite Forall_forall in Hall. destruct (Hall e He) as [? Htag].
    split; [done|]. destruct (Hsub e Htag) as (t0 & ? & ?). by exists t0, l.
  - simpl in *.
    destruct ((_pipeline_fit t a _ y sample_weight;; _) w4) as [r5 w5]
      eqn:Hlast5.
    apply fit_last_step in Hlast5 as (e5 & Htr5 & Htg & Htag & Hst & Hl5).
    simpl in *. rewrite Htr, <- app_assoc in Htr5.
    rewrite (events_since_app _ _ _ Htr5) in He.
    rewrite Hl5, Hs4. simpl.
    apply elem_of_app in He as [He|He%list_elem_of_singleton].
    + rewrite Forall_forall in Hall. destruct (Hall e He) as [? Htag'].
      split; [done|]. destruct (Hsub e Htag') as (t0 & ? & ?). by exists t0, l.
    + subst e. split; [done|]. exists t, l. split_and!; [done..|].
      rewrite Hst. rewrite <- (removelast_last l _ Hlast).
      apply elem_of_app. right. apply list_elem_of_here.
Qed.

End FitArguments.

(** ** The further properties on the small pipeline *)

Section MoreInstances.
#[local] Existing Instance Toy.frames.
#[local] Existing Instance Toy.contract.
Import Toy.

(** Refitting a fitted pipeline whose "gen" step cannot be fitted: the
    exception of the step comes out, "opt" is never run, [steps_] holds the
    new copies and [rules] is the old one. *)
Lemma step_exception_aborts_call_witness :
  let w := refitted true gen_opt in
  let res := @fit frames (brittle true) X0 y0 PyNone w in
  res.1 = inl (StepError "gen cannot fit") ∧
  length (@events_since frames (brittle true) w res.2) = 1.
Proof.
  intros w res.
  destruct (@step_exception_aborts_call frames (brittle true)
              (CallFit X0 y0 PyNone) w 0 gen_failure
              (StepError "gen cannot fit"))
    as [_ Hlen]; [reflexivity|reflexivity|].
  split; [reflexivity|exact Hlen].
Defined.

Lemma failed_fit_keeps_rules_witness :
  let w := refitted true gen_opt in
  let w' := (@fit frames (brittle true) X0 y0 PyNone w).2 in
  rules (self w') = Some 7 ∧ steps_ (self w') = Some [("gen", 4); ("opt", 5)] ∧
  (@fit frames (brittle false) X0 y0 PyNone (refitted false [("opt", 1)])).1
  = inl (AttributeError "rules") ∧
  rules (self (@fit frames (brittle false) X0 y0 PyNone
                 (refitted false [("opt", 1)])).2) = Some 7.
Proof.
  intros w w'.
  destruct (@failed_fit_keeps_rules frames (brittle true) X0 y0 PyNone w
              (StepError "gen cannot fit") w')
    as (Hr & _); [by apply result_with_store|].
  destruct (@failed_fit_keeps_rules frames (brittle false) X0 y0 PyNone
              (refitted false [("opt", 1)]) (AttributeError "rules")
              (@fit frames (brittle false) X0 y0 PyNone
                 (refitted false [("opt", 1)])).2)
    as (Hr' & _); [by apply result_with_store|].
  split_and!; [exact Hr|reflexivity|reflexivity|exact Hr'].
Defined.


Lemma each_call_uses_its_capability_witness :
  let w := fitted None in
  ev_method <$> events_since w (run (CallPredict X0) w).2
  = [Transform; Predict] ∧
  events_since w (run (CallPredict X0) w).2 !! 1
  = Some (predict_event (widen X0) 1) ∧
  ev_method (predict_event (widen X0) 1) ≠ Fit.
Proof.
  intros w. split; [reflexivity|]. split; [reflexivity|].
  destruct (each_call_uses_its_capability (CallPredict X0) w
              [("gen", 2); ("opt", 3)] 1 (predict_event (widen X0) 1))
    as (_ & _ & Hnofit & _); [reflexivity|reflexivity|exact Hnofit].
Defined.

Lemma queries_return_the_last_output_witness :
  let w := fitted None in
  (transform X0 w).1 = inr (widen (widen X0)) ∧
  match last (events_since w (transform X0 w).2) with
  | Some e => ev_out e = inr (widen (widen X0))
  | None => widen (widen X0) = X0 ∧
            steps_ (self (transform X0 w).2) = Some []
  end.
Proof.
  intros w. split; [reflexivity|].
  apply (proj1 (queries_return_the_last_output X0 w (widen (widen X0))
                  (transform X0 w).2)).
  by apply run_with_result.
Defined.

Lemma empty_pipeline_witness :
  ∃ w', fit X0 y0 PyNone empty = (inl IndexError, w') ∧
        steps_ (self w') = Some [] ∧
        (transform X0 w').1 = inr X0 ∧ (predict X0 w').1 = inl IndexError.
Proof.
  destruct (empty_pipeline X0 y0 PyNone empty)
    as (w' & Hfit & Hl & _ & _ & Hq);
    [reflexivity|by apply (bool_decide_unpack _)..|].
  exists w'. destruct (Hq X0) as [Ht Hp]; [by apply (bool_decide_unpack _)|].
  by split_and!.
Defined.

(** The configured step objects (at 0 and 1) after queries on the fitted
    pipeline. *)
Lemma queries_touch_fitted_steps_only_witness :
  let w := fitted None in
  heap (run_queries [QTransform X0; QPredict X0] w) 0 = heap w 0 ∧
  next_addr (run_queries [QTransform X0; QPredict X0] w) = 4.
Proof.
  intros w.
  destruct (queries_touch_fitted_steps_only [QTransform X0; QPredict X0] w 0)
    as [Hh Hn]; [|split; [exact Hh|by rewrite Hn]].
  intros l Hl. assert (l = [("gen", 2); ("opt", 3)]) as ->
    by (vm_compute in Hl; congruence).
  by apply (bool_decide_unpack _).
Defined.

Lemma get_follows_the_snapshot_witness :
  ClassAccessor.get (ClassAccessor.__init__ "gen" "n_rules")
    (<["gen" := <["n_rules" := 5]> {["n_rules" := 3]}]> params) = inr 5 ∧
  ClassAccessor.get (ClassAccessor.__init__ "gen" "n_rules")
    (<["opt" := ∅]> params)
  = ClassAccessor.get (ClassAccessor.__init__ "gen" "n_rules") params.
Proof.
  destruct (get_follows_the_snapshot
              (ClassAccessor.__init__ "gen" "n_rules") params)
    as (Hset & Hother & _).
  split; [apply Hset|by apply Hother].
Defined.

Lemma predict_walks_like_transform_witness :
  let w := fitted None in
  take 1 (events_since w (predict X0 w).2)
  = take 1 (events_since w (transform X0 w).2).
Proof.
  intros w.
  apply (predict_walks_like_transform X0 w [("gen", 2); ("opt", 3)]).
  reflexivity.
Defined.

Lemma fit_transform_walks_twice_witness :
  let w := unfitted None in
  ev_method <$> events_since w (fit_transform X0 y0 PyNone w).2
  = [FitTransform; Fit; Transform; Transform] ∧
  ev_method <$> events_since w (fit_predict X0 y0 PyNone w).2
  = [FitTransform; Fit; Transform; Predict].
Proof.
  intros w.
  destruct (fit_transform_walks_twice X0 y0 PyNone w (widen (widen X0))
              (fit_transform X0 y0 PyNone w).2) as [Ht _].
  destruct (fit_transform_walks_twice X0 y0 PyNone w prediction
              (fit_predict X0 y0 PyNone w).2) as [_ Hp].
  destruct Ht as (l & Hl & _ & Hm); [by apply run_with_result|].
  destruct Hp as (l' & Hl' & _ & Hm'); [by apply run_with_result|].
  assert (l = [("gen", 2); ("opt", 3)]) as ->
    by (vm_compute in Hl; congruence).
  assert (l' = [("gen", 2); ("opt", 3)]) as ->
    by (vm_compute in Hl'; congruence).
  split; [exact Hm|exact Hm'].
Defined.

(** The fitted pipeline as "gen" followed by "opt". *)
Lemma transform_composes_witness :
  let w := fitted None in
  let first := transform X0 (set_steps_ [("gen", 2)] w).2 in
  first.1 = inr (widen X0) ∧
  transform X0 (set_steps_ ([("gen", 2)] ++ [("opt", 3)]) w).2
  = ((transform (widen X0) (set_steps_ [("opt", 3)] first.2).2).1,
     (set_steps_ ([("gen", 2)] ++ [("opt", 3)])
        (transform (widen X0) (set_steps_ [("opt", 3)] first.2).2).2).2).
Proof.
  intros w first. split; [reflexivity|].
  apply (transform_composes X0 w [("gen", 2)] [("opt", 3)]
           (inr (widen X0)) first.2).
  - by left.
  - by apply run_with_result.
  - by apply (bool_decide_unpack _).
Defined.

(** A populated [use_init_data] that lists no step of the pipeline still
    costs a copy. *)
Lemma one_copy_per_call_witness :
  let w := unfitted (Some ["no such step"]) in
  next_oid w = 2 ∧ next_oid (run (CallFit X0 y0 PyNone) w).2 = 3.
Proof.
  intros w. split; [reflexivity|].
  destruct (one_copy_per_call (CallFit X0 y0 PyNone) w) as (_ & Hone & _).
  apply (Hone "no such step" []); [reflexivity|].
  vm_compute. discriminate.
Defined.

Lemma fit_hands_targets_to_every_step_witness :
  let w := unfitted None in
  opt_event (widen X0) ∈ events_since w (fit X0 y0 PyNone w).2 ∧
  ev_target (opt_event (widen X0)) = Some (y0, PyNone).
Proof.
  intros w.
  assert (opt_event (widen X0) ∈ events_since w (fit X0 y0 PyNone w).2) as Hin.
  { change (opt_event (widen X0) ∈ [gen_event X0; opt_event (widen X0)]).
    apply list_elem_of_further, list_elem_of_here. }
  split; [exact Hin|].
  by destruct (fit_hands_targets_to_every_step X0 y0 PyNone w
                 (opt_event (widen X0)) Hin).
Defined.

End MoreInstances.
